(** * The Meter of the metrics SDK: registration of storages and collection

    A shallow embedding of [Meter] (instrument creation, the private
    [_registerMetricStorage] and [_registerAsyncMetricStorage], and [collect])
    and of the [MetricStorage] interface it drives.  JavaScript objects that
    are shared and mutated (meters, storages) live in a store and are named
    by their allocation index; a [Map] is an association list in insertion
    order; a promise is its settled outcome. *)

From stdpp Require Import gmap strings list.

Local Open Scope Z_scope.
Local Open Scope string_scope.
Local Open Scope list_scope.

(** ** Values of the data model *)

Inductive InstrumentType :=
  | COUNTER
  | HISTOGRAM
  | UP_DOWN_COUNTER
  | OBSERVABLE_COUNTER
  | OBSERVABLE_GAUGE
  | OBSERVABLE_UP_DOWN_COUNTER.

Inductive ValueType := INT | DOUBLE.

Inductive AggregationTemporality := DELTA | CUMULATIVE.

Global Instance InstrumentType_eq_dec : EqDecision InstrumentType.
Proof. solve_decision. Defined.
Global Instance ValueType_eq_dec : EqDecision ValueType.
Proof. solve_decision. Defined.
Global Instance AggregationTemporality_eq_dec : EqDecision AggregationTemporality.
Proof. solve_decision. Defined.

(** An attribute value is a primitive; measurements are integer valued
    ([ValueType.INT]), which a JavaScript number holds exactly. *)
Inductive AttributeValue :=
  | AttrString (s : string)
  | AttrNumber (n : Z)
  | AttrBoolean (b : bool).

Global Instance AttributeValue_eq_dec : EqDecision AttributeValue.
Proof. solve_decision. Defined.

(** Attribute sets are compared by content, whatever the order of the keys. *)
Abbreviation Attributes := (gmap string AttributeValue).

(** [HrTime] is the pair [seconds, nanoseconds]. *)
Definition HrTime : Type := Z * Z.

Record Resource := { resource_attributes : Attributes }.

Record InstrumentationLibrary := {
  library_name : string;
  library_version : string
}.

Record MetricOptions := {
  options_description : string;
  options_unit : string;
  options_valueType : ValueType
}.

Record InstrumentDescriptor := {
  descriptor_name : string;
  descriptor_description : string;
  descriptor_unit : string;
  descriptor_type : InstrumentType;
  descriptor_valueType : ValueType
}.

(** Modelled from the spec: [createInstrumentDescriptor(name, type, options)]
    is not among the sources.  The descriptor has the name and the kind it
    is given, and the description, the unit and the value type of the
    options (here already resolved to values). *)
Definition createInstrumentDescriptor
    (name : string) (type : InstrumentType) (options : MetricOptions)
    : InstrumentDescriptor :=
  {| descriptor_name := name;
     descriptor_description := options_description options;
     descriptor_unit := options_unit options;
     descriptor_type := type;
     descriptor_valueType := options_valueType options |}.

Record MetricCollectorHandle := {
  collector_id : nat;
  aggregationTemporality : AggregationTemporality
}.

(** ** JavaScript helpers: [Maybe], promises, [Map] *)

Inductive Maybe (T : Type) :=
  | Just (x : T)
  | Undefined
  | Null.
Arguments Just {T} x.
Arguments Undefined {T}.
Arguments Null {T}.

(** Modelled from the spec: [isNotNullish] of [utils] is not among the
    sources.  It holds of what is neither [undefined] nor [null]; the
    filter with it discards the empty results. *)
Definition isNotNullish {T} (item : Maybe T) : bool :=
  match item with
  | Just _ => true
  | Undefined | Null => false
  end.

Definition JsError : Type := string.

(** A promise, once settled. *)
Inductive Promise (T : Type) :=
  | Resolved (value : T)
  | Rejected (reason : JsError).
Arguments Resolved {T} value.
Arguments Rejected {T} reason.

Definition Promise_then {A B} (f : A → B) (p : Promise A) : Promise B :=
  match p with
  | Resolved v => Resolved (f v)
  | Rejected e => Rejected e
  end.

(** [Promise.all]: resolves with all the values, in the order of the input,
    when every promise resolves, and rejects when one rejects, with the
    reason of a promise that rejected.  Of several promises that reject,
    JavaScript takes the one that rejects first in time; a settled promise
    carries no time, and this takes the first in the order of the input.
    What is proved of a rejection holds whichever of them is taken. *)
Fixpoint Promise_all {T} (ps : list (Promise T)) : Promise (list T) :=
  match ps with
  | [] => Resolved []
  | Resolved v :: ps' => Promise_then (cons v) (Promise_all ps')
  | Rejected e :: _ => Rejected e
  end.

(** A [Map] with string keys keeps its entries in insertion order; [set] on
    a key already present replaces the value where the entry stands. *)
Fixpoint Map_set {V} (key : string) (value : V) (m : list (string * V))
    : list (string * V) :=
  match m with
  | [] => [(key, value)]
  | (k, v) :: m' =>
      if decide (k = key) then (key, value) :: m'
      else (k, v) :: Map_set key value m'
  end.

Fixpoint Map_get {V} (key : string) (m : list (string * V)) : option V :=
  match m with
  | [] => None
  | (k, v) :: m' => if decide (k = key) then Some v else Map_get key m'
  end.

Definition Map_values {V} (m : list (string * V)) : list V := m.*2.

(** ** Views and the view registry *)

(** A histogram boundary is a number; [Infinity] is one of them. *)
Inductive Boundary :=
  | Finite (b : Z)
  | PosInfinity.

Global Instance Boundary_eq_dec : EqDecision Boundary.
Proof. solve_decision. Defined.

(** Modelled from the spec: the class [View] is not among the sources.  A
    view supplies an aggregation override: name, description, the attribute
    keys to keep, histogram boundaries. *)
Record View := {
  view_name : option string;
  view_description : option string;
  view_attributeKeys : option (list string);
  view_boundaries : option (list Boundary)
}.

(** The default view uses the descriptor as it is. *)
Definition DEFAULT_VIEW : View :=
  {| view_name := None;
     view_description := None;
     view_attributeKeys := None;
     view_boundaries := None |}.

(** What [Meter] uses of the view registry held by the shared state: the
    method [findViews(descriptor, instrumentationLibrary)]. *)
Record ViewRegistry := {
  findViews : InstrumentDescriptor → InstrumentationLibrary → list View
}.

Inductive NameSelector :=
  | AnyName
  | ExactName (n : string).

Record RegisteredView := {
  selector_name : NameSelector;
  selector_type : option InstrumentType;
  selector_meter : option string;
  registered_view : View
}.

Definition matchInstrument (rv : RegisteredView) (d : InstrumentDescriptor)
    : bool :=
  match selector_name rv with
  | AnyName => true
  | ExactName n => bool_decide (n = descriptor_name d)
  end
  && match selector_type rv with
     | None => true
     | Some t => bool_decide (t = descriptor_type d)
     end.

Definition matchMeter (rv : RegisteredView) (lib : InstrumentationLibrary)
    : bool :=
  match selector_meter rv with
  | None => true
  | Some n => bool_decide (n = library_name lib)
  end.

Definition matchingViews (registered : list RegisteredView)
    (d : InstrumentDescriptor) (lib : InstrumentationLibrary) : list View :=
  registered_view <$>
    filter (λ rv, matchInstrument rv d && matchMeter rv lib = true) registered.

(** Modelled from the spec: the class [ViewRegistry] is not among the
    sources.  A view matches on the instrument name (exact or wildcard), the
    instrument kind and optionally the instrumentation scope; matching keeps
    the order of registration; if no registered view matches, one default
    view is synthesized. *)
Definition ViewRegistry_of (registered : list RegisteredView) : ViewRegistry :=
  {| findViews d lib :=
       match matchingViews registered d lib with
       | [] => [DEFAULT_VIEW]
       | views => views
       end |}.

(** ** Accumulations, points and metric data *)

(** Modelled from the spec: the accumulations are not among the sources.
    The running value of one attribute set is a sum, or the state of a
    histogram: sum, count and one count per bucket. *)
Inductive Accumulation :=
  | SumAccumulation (value : Z)
  | HistogramAccumulation (sum : Z) (count : Z) (bucketCounts : list Z).

Global Instance Accumulation_eq_dec : EqDecision Accumulation.
Proof. solve_decision. Defined.

Record PointSnapshot := {
  point_attributes : Attributes;
  point_value : Accumulation;
  point_startTime : HrTime;
  point_endTime : HrTime
}.

Record MetricData := {
  metric_descriptor : InstrumentDescriptor;
  metric_resource : Resource;
  metric_instrumentationLibrary : InstrumentationLibrary;
  metric_temporality : AggregationTemporality;
  metric_points : list PointSnapshot
}.

(** The arguments of [MetricStorage.collect], in the order of the
    interface. *)
Record CollectArguments := {
  arg_collector : MetricCollectorHandle;
  arg_collectors : list MetricCollectorHandle;
  arg_resource : Resource;
  arg_instrumentationLibrary : InstrumentationLibrary;
  arg_sdkStartTime : HrTime;
  arg_collectionTime : HrTime
}.

(** ** Aggregation *)

Inductive Aggregator :=
  | SumAggregator
  | HistogramAggregator (boundaries : list Boundary).

(** The defaults of [ensureHistogramIsCorrect], the helper of the exporter
    tests: [explicitBounds = [Infinity]] and [bucketCounts = [2, 0]].  Its
    expected point has [sum: 21] and [count: 2]. *)
Definition ensureHistogramIsCorrect_explicitBounds : list Boundary :=
  [PosInfinity].
Definition ensureHistogramIsCorrect_bucketCounts : list Z := [2; 0].

(** Modelled from the spec: neither the sources nor the spec name the
    boundaries of a histogram whose view configures none.  The spec places
    a value by the configured explicit boundaries, with a last boundary
    that is implicitly +∞; with none configured there is the one bucket of
    that last boundary.  What is proved of such a histogram holds whatever
    the boundaries are. *)
Definition DEFAULT_BOUNDARIES : list Boundary := [].

Definition below (value : Z) (b : Boundary) : bool :=
  match b with
  | Finite z => bool_decide (value < z)
  | PosInfinity => true
  end.

(** Modelled from the spec: the histogram aggregation is not among the
    sources.  The bucket of a value is that of the first boundary the value
    falls under; a value under none of them goes to the last bucket, whose
    boundary is implicitly +∞.  So there is one bucket more than there are
    boundaries. *)
Fixpoint bucketIndex (boundaries : list Boundary) (value : Z) : nat :=
  match boundaries with
  | [] => 0%nat
  | b :: bs => if below value b then 0%nat else S (bucketIndex bs value)
  end.

Definition createAccumulation (agg : Aggregator) : Accumulation :=
  match agg with
  | SumAggregator => SumAccumulation 0
  | HistogramAggregator bs =>
      HistogramAccumulation 0 0 (replicate (S (length bs)) 0)
  end.

(** Modelled from the spec: a write adds the value to a sum; for a
    histogram it adds the value to the sum, one to the count and one to the
    bucket of the value. *)
Definition updateAccumulation (agg : Aggregator) (value : Z)
    (acc : Accumulation) : Accumulation :=
  match agg, acc with
  | HistogramAggregator bs, HistogramAccumulation sum count buckets =>
      HistogramAccumulation (sum + value) (count + 1)
        (alter Z.succ (bucketIndex bs value) buckets)
  | _, SumAccumulation v => SumAccumulation (v + value)
  | _, _ => acc
  end.

(** What a delta collector is given: the current accumulation less the one
    it was given last. *)
Definition diffAccumulation (current previous : Accumulation) : Accumulation :=
  match current, previous with
  | SumAccumulation v, SumAccumulation p => SumAccumulation (v - p)
  | HistogramAccumulation s c bs, HistogramAccumulation ps pc pbs =>
      HistogramAccumulation (s - ps) (c - pc) (zip_with Z.sub bs pbs)
  | _, _ => current
  end.

(** The buckets of a storage, one per attribute set, in the order of their
    first write. *)
Definition Buckets : Type := list (Attributes * Accumulation).

Fixpoint Buckets_get (attributes : Attributes) (bs : Buckets)
    : option Accumulation :=
  match bs with
  | [] => None
  | (a, acc) :: bs' =>
      if decide (a = attributes) then Some acc else Buckets_get attributes bs'
  end.

(** Locate the accumulation of the attribute set, or create it, and update
    it with the value. *)
Fixpoint Buckets_record (agg : Aggregator) (value : Z)
    (attributes : Attributes) (bs : Buckets) : Buckets :=
  match bs with
  | [] => [(attributes, updateAccumulation agg value (createAccumulation agg))]
  | (a, acc) :: bs' =>
      if decide (a = attributes)
      then (a, updateAccumulation agg value acc) :: bs'
      else (a, acc) :: Buckets_record agg value attributes bs'
  end.

(** The cursor a storage keeps for one collector. *)
Record Cursor := {
  cursor_lastCollectionTime : HrTime;
  cursor_baseline : Buckets
}.

Definition pointOf (start finish : HrTime) (attributes : Attributes)
    (acc : Accumulation) : PointSnapshot :=
  {| point_attributes := attributes;
     point_value := acc;
     point_startTime := start;
     point_endTime := finish |}.

(** Modelled from the spec: the collect path of a storage is not among the
    sources.  Cumulative: the running total of every bucket, since the
    start of the SDK.  Delta: for every bucket that changed since this
    collector's last collection, the increment since then, from the time of
    that collection (from the start of the SDK at the first one). *)
Definition buildPoints (args : CollectArguments) (cursor : option Cursor)
    (buckets : Buckets) : list PointSnapshot :=
  match aggregationTemporality (arg_collector args) with
  | CUMULATIVE =>
      (λ b, pointOf (arg_sdkStartTime args) (arg_collectionTime args) b.1 b.2)
        <$> buckets
  | DELTA =>
      let start := from_option cursor_lastCollectionTime
                     (arg_sdkStartTime args) cursor in
      let baseline := from_option cursor_baseline [] cursor in
      omap (λ b,
        match Buckets_get b.1 baseline with
        | None => Some (pointOf start (arg_collectionTime args) b.1 b.2)
        | Some previous =>
            if decide (b.2 = previous) then None
            else Some (pointOf start (arg_collectionTime args) b.1
                         (diffAccumulation b.2 previous))
        end) buckets
  end.

(** Modelled from the spec: the snapshot handed to a collector and the
    cursors after it.  Nothing to export gives [undefined]; the cursor of
    the collector, and only that one, moves to the collection time and to
    the current buckets. *)
Definition collectBuckets (descriptor : InstrumentDescriptor)
    (args : CollectArguments) (buckets : Buckets) (cursors : gmap nat Cursor)
    : Maybe MetricData * gmap nat Cursor :=
  let id := collector_id (arg_collector args) in
  let points := buildPoints args (cursors !! id) buckets in
  let cursors' :=
    <[id := {| cursor_lastCollectionTime := arg_collectionTime args;
               cursor_baseline := buckets |}]> cursors in
  (match points with
   | [] => Undefined
   | _ =>
       Just {| metric_descriptor := descriptor;
               metric_resource := arg_resource args;
               metric_instrumentationLibrary := arg_instrumentationLibrary args;
               metric_temporality := aggregationTemporality (arg_collector args);
               metric_points := points |}
   end, cursors').

(** ** Storages *)

(** The descriptor a storage reports under: the view may rename the
    instrument and replace its description. *)
Definition viewDescriptor (view : View) (d : InstrumentDescriptor)
    : InstrumentDescriptor :=
  {| descriptor_name := default (descriptor_name d) (view_name view);
     descriptor_description :=
       default (descriptor_description d) (view_description view);
     descriptor_unit := descriptor_unit d;
     descriptor_type := descriptor_type d;
     descriptor_valueType := descriptor_valueType d |}.

(** The default aggregation follows the kind of the instrument; a view can
    set the boundaries of a histogram. *)
Definition viewAggregator (view : View) (d : InstrumentDescriptor)
    : Aggregator :=
  match descriptor_type d with
  | HISTOGRAM =>
      HistogramAggregator (default DEFAULT_BOUNDARIES (view_boundaries view))
  | _ => SumAggregator
  end.

Definition viewAttributes (view : View) (attributes : Attributes)
    : Attributes :=
  match view_attributeKeys view with
  | None => attributes
  | Some keys => filter (λ kv, kv.1 ∈ keys) attributes
  end.

(** Modelled from the spec: the class [SyncMetricStorage] is not among the
    sources.  It accumulates the writes of an instrument per attribute set
    and keeps one cursor per collector. *)
Record SyncMetricStorage := {
  sync_view : View;
  sync_descriptor : InstrumentDescriptor;
  sync_aggregator : Aggregator;
  sync_buckets : Buckets;
  sync_cursors : gmap nat Cursor
}.

Definition SyncMetricStorage_create (view : View) (d : InstrumentDescriptor)
    : SyncMetricStorage :=
  {| sync_view := view;
     sync_descriptor := viewDescriptor view d;
     sync_aggregator := viewAggregator view d;
     sync_buckets := [];
     sync_cursors := ∅ |}.

Definition SyncMetricStorage_record (value : Z) (attributes : Attributes)
    (s : SyncMetricStorage) : SyncMetricStorage :=
  {| sync_view := sync_view s;
     sync_descriptor := sync_descriptor s;
     sync_aggregator := sync_aggregator s;
     sync_buckets :=
       Buckets_record (sync_aggregator s) value
         (viewAttributes (sync_view s) attributes) (sync_buckets s);
     sync_cursors := sync_cursors s |}.

Definition SyncMetricStorage_collect (args : CollectArguments)
    (s : SyncMetricStorage) : Promise (Maybe MetricData) * SyncMetricStorage :=
  let '(data, cursors) :=
    collectBuckets (sync_descriptor s) args (sync_buckets s) (sync_cursors s) in
  (Resolved data,
   {| sync_view := sync_view s;
      sync_descriptor := sync_descriptor s;
      sync_aggregator := sync_aggregator s;
      sync_buckets := sync_buckets s;
      sync_cursors := cursors |}).

(** What one invocation of an observable callback does: it reports
    observations, or it throws (or its promise rejects). *)
Inductive CallbackResult :=
  | Observed (observations : list (Z * Attributes))
  | Thrown (reason : JsError).

(** A callback reads the world outside: its result depends on how many
    times it has been invoked before. *)
Definition ObservableCallback : Type := nat → CallbackResult.

(** Modelled from the spec: the class [AsyncMetricStorage] is not among the
    sources.  At collection it invokes the callback and awaits it; the
    observations of that invocation replace the buckets (of several
    observations for one attribute set the last one stands); a failure of
    the callback is the failure of the collection of this storage. *)
Record AsyncMetricStorage := {
  async_view : View;
  async_descriptor : InstrumentDescriptor;
  async_callback : ObservableCallback;
  async_invocations : nat;
  async_buckets : Buckets;
  async_cursors : gmap nat Cursor
}.

Definition AsyncMetricStorage_create (view : View) (d : InstrumentDescriptor)
    (callback : ObservableCallback) : AsyncMetricStorage :=
  {| async_view := view;
     async_descriptor := viewDescriptor view d;
     async_callback := callback;
     async_invocations := 0;
     async_buckets := [];
     async_cursors := ∅ |}.

Fixpoint Buckets_observe (value : Z) (attributes : Attributes) (bs : Buckets)
    : Buckets :=
  match bs with
  | [] => [(attributes, SumAccumulation value)]
  | (a, acc) :: bs' =>
      if decide (a = attributes) then (a, SumAccumulation value) :: bs'
      else (a, acc) :: Buckets_observe value attributes bs'
  end.

Definition AsyncMetricStorage_collect (args : CollectArguments)
    (s : AsyncMetricStorage) : Promise (Maybe MetricData) * AsyncMetricStorage :=
  let invoked := S (async_invocations s) in
  match async_callback s (async_invocations s) with
  | Thrown e =>
      (Rejected e,
       {| async_view := async_view s;
          async_descriptor := async_descriptor s;
          async_callback := async_callback s;
          async_invocations := invoked;
          async_buckets := async_buckets s;
          async_cursors := async_cursors s |})
  | Observed observations =>
      let buckets :=
        foldl (λ bs o, Buckets_observe o.1 (viewAttributes (async_view s) o.2) bs)
          [] observations in
      let '(data, cursors) :=
        collectBuckets (async_descriptor s) args buckets (async_cursors s) in
      (Resolved data,
       {| async_view := async_view s;
          async_descriptor := async_descriptor s;
          async_callback := async_callback s;
          async_invocations := invoked;
          async_buckets := buckets;
          async_cursors := cursors |})
  end.

(** The interface [MetricStorage] has one method, [collect], whose result
    is a promise of [Maybe<MetricData>]: one [MetricData] or nothing.  A
    [collect] that throws is a [collect] whose promise rejects.  The
    storages a [Meter] registers are of these two classes. *)
Inductive MetricStorage :=
  | Sync (s : SyncMetricStorage)
  | Async (s : AsyncMetricStorage).

Definition MetricStorage_collect (args : CollectArguments) (s : MetricStorage)
    : Promise (Maybe MetricData) * MetricStorage :=
  match s with
  | Sync s => prod_map id Sync (SyncMetricStorage_collect args s)
  | Async s => prod_map id Async (AsyncMetricStorage_collect args s)
  end.

(** ** The store: shared state, meters, storages *)

(** Modelled from the spec: the class [MeterProviderSharedState] is not among
    the sources.  It holds the resource, the start time of the SDK, the view
    registry, the registered collectors and the meters (by reference);
    [Meter] reads the first four and pushes itself onto the last. *)
Record MeterProviderSharedState := {
  resource : Resource;
  sdkStartTime : HrTime;
  viewRegistry : ViewRegistry;
  metricCollectors : list MetricCollectorHandle;
  meters : list nat
}.

(** The fields of a [Meter].  Its [_meterProviderSharedState] is the shared
    state of the store it lives in. *)
Record Meter := {
  _metricStorageRegistry : list (string * nat);
  _instrumentationLibrary : InstrumentationLibrary
}.

Record Sdk := {
  sharedState : MeterProviderSharedState;
  meterObjects : list Meter;
  storageObjects : list MetricStorage
}.

(** A method runs on the store and leaves a new one.  [None] is what no
    program reaches: the use of a reference to an object that was never
    allocated, a write to a storage that takes no writes. *)
Definition Run (A : Type) : Type := Sdk → option (A * Sdk).

Global Instance Run_ret : MRet Run := λ A x s, Some (x, s).
Global Instance Run_bind : MBind Run := λ A B f m s,
  match m s with
  | Some (x, s') => f x s'
  | None => None
  end.

Fixpoint mapM {A B} (f : A → Run B) (l : list A) : Run (list B) :=
  match l with
  | [] => mret []
  | x :: l' => y ← f x; ys ← mapM f l'; mret (y :: ys)
  end.

Definition getShared : Run MeterProviderSharedState :=
  λ s, Some (sharedState s, s).

Definition getMeter (this : nat) : Run Meter :=
  λ s, (λ m, (m, s)) <$> meterObjects s !! this.

Definition setMeter (this : nat) (m : Meter) : Run () :=
  λ s, Some ((), {| sharedState := sharedState s;
                    meterObjects := <[this := m]> (meterObjects s);
                    storageObjects := storageObjects s |}).

Definition getStorage (storage : nat) : Run MetricStorage :=
  λ s, (λ st, (st, s)) <$> storageObjects s !! storage.

Definition setStorage (storage : nat) (st : MetricStorage) : Run () :=
  λ s, Some ((), {| sharedState := sharedState s;
                    meterObjects := meterObjects s;
                    storageObjects := <[storage := st]> (storageObjects s) |}).

(** [new]: the object gets the next reference. *)
Definition newStorage (st : MetricStorage) : Run nat :=
  λ s, Some (length (storageObjects s),
             {| sharedState := sharedState s;
                meterObjects := meterObjects s;
                storageObjects := storageObjects s ++ [st] |}).

(** [this._metricStorageRegistry.set(key, storage)] *)
Definition registrySet (this : nat) (key : string) (storage : nat) : Run () :=
  m ← getMeter this;
  setMeter this
    {| _metricStorageRegistry := Map_set key storage (_metricStorageRegistry m);
       _instrumentationLibrary := _instrumentationLibrary m |}.

(** ** Meter *)

(** The constructor: [this._meterProviderSharedState.meters.push(this)]. *)
Definition Meter_new (instrumentationLibrary : InstrumentationLibrary)
    : Run nat :=
  λ s,
    let this := length (meterObjects s) in
    let shared := sharedState s in
    Some (this,
          {| sharedState :=
               {| resource := resource shared;
                  sdkStartTime := sdkStartTime shared;
                  viewRegistry := viewRegistry shared;
                  metricCollectors := metricCollectors shared;
                  meters := meters shared ++ [this] |};
             meterObjects :=
               meterObjects s ++
                 [{| _metricStorageRegistry := [];
                     _instrumentationLibrary := instrumentationLibrary |}];
             storageObjects := storageObjects s |}).

(** What an instrument writes to: the storage of its one view, or a
    [MultiMetricStorage] over the storages of its views. *)
Inductive WritableMetricStorage :=
  | SingleStorage (storage : nat)
  | MultiMetricStorage (_backingStorages : list nat).

Definition Meter__registerMetricStorage (this : nat)
    (descriptor : InstrumentDescriptor) : Run WritableMetricStorage :=
  m ← getMeter this;
  shared ← getShared;
  let views :=
    findViews (viewRegistry shared) descriptor (_instrumentationLibrary m) in
  storages ← mapM (λ view,
    storage ← newStorage (Sync (SyncMetricStorage_create view descriptor));
    _ ← registrySet this (descriptor_name descriptor) storage;
    mret storage) views;
  mret (match storages with
        | [storage] => SingleStorage storage
        | _ => MultiMetricStorage storages
        end).

Definition Meter__registerAsyncMetricStorage (this : nat)
    (descriptor : InstrumentDescriptor) (callback : ObservableCallback)
    : Run () :=
  m ← getMeter this;
  shared ← getShared;
  let views :=
    findViews (viewRegistry shared) descriptor (_instrumentationLibrary m) in
  _ ← mapM (λ view,
    storage ← newStorage
      (Async (AsyncMetricStorage_create view descriptor callback));
    registrySet this (descriptor_name descriptor) storage) views;
  mret ().

(** A synchronous instrument: [new Counter(storage, descriptor)] and the
    like. *)
Record SyncInstrument := {
  _writableMetricStorage : WritableMetricStorage;
  _descriptor : InstrumentDescriptor
}.

Definition Meter_createHistogram (this : nat) (name : string)
    (options : MetricOptions) : Run SyncInstrument :=
  let descriptor := createInstrumentDescriptor name HISTOGRAM options in
  storage ← Meter__registerMetricStorage this descriptor;
  mret {| _writableMetricStorage := storage; _descriptor := descriptor |}.

Definition Meter_createCounter (this : nat) (name : string)
    (options : MetricOptions) : Run SyncInstrument :=
  let descriptor := createInstrumentDescriptor name COUNTER options in
  storage ← Meter__registerMetricStorage this descriptor;
  mret {| _writableMetricStorage := storage; _descriptor := descriptor |}.

Definition Meter_createUpDownCounter (this : nat) (name : string)
    (options : MetricOptions) : Run SyncInstrument :=
  let descriptor := createInstrumentDescriptor name UP_DOWN_COUNTER options in
  storage ← Meter__registerMetricStorage this descriptor;
  mret {| _writableMetricStorage := storage; _descriptor := descriptor |}.

Definition Meter_createObservableGauge (this : nat) (name : string)
    (callback : ObservableCallback) (options : MetricOptions) : Run () :=
  let descriptor := createInstrumentDescriptor name OBSERVABLE_GAUGE options in
  Meter__registerAsyncMetricStorage this descriptor callback.

Definition Meter_createObservableCounter (this : nat) (name : string)
    (callback : ObservableCallback) (options : MetricOptions) : Run () :=
  let descriptor :=
    createInstrumentDescriptor name OBSERVABLE_COUNTER options in
  Meter__registerAsyncMetricStorage this descriptor callback.

Definition Meter_createObservableUpDownCounter (this : nat) (name : string)
    (callback : ObservableCallback) (options : MetricOptions) : Run () :=
  let descriptor :=
    createInstrumentDescriptor name OBSERVABLE_UP_DOWN_COUNTER options in
  Meter__registerAsyncMetricStorage this descriptor callback.

(** One invocation of [metricStorage.collect(...)] by [Meter.collect]: the
    storage, the arguments, the promise it returned. *)
Record CollectCall := {
  call_storage : nat;
  call_arguments : CollectArguments;
  call_promise : Promise (Maybe MetricData)
}.

Definition collectStorage (metricStorage : nat) (args : CollectArguments)
    : Run CollectCall :=
  st ← getStorage metricStorage;
  let '(promise, st') := MetricStorage_collect args st in
  _ ← setStorage metricStorage st';
  mret {| call_storage := metricStorage;
          call_arguments := args;
          call_promise := promise |}.

(** [Array.from(this._metricStorageRegistry.values()).map(metricStorage =>
    metricStorage.collect(...))]: every argument is read when the storage is
    reached. *)
Definition Meter_collect_map (this : nat) (collector : MetricCollectorHandle)
    (collectionTime : HrTime) : Run (list CollectCall) :=
  m ← getMeter this;
  mapM (λ metricStorage,
    shared ← getShared;
    m' ← getMeter this;
    collectStorage metricStorage
      {| arg_collector := collector;
         arg_collectors := metricCollectors shared;
         arg_resource := resource shared;
         arg_instrumentationLibrary := _instrumentationLibrary m';
         arg_sdkStartTime := sdkStartTime shared;
         arg_collectionTime := collectionTime |})
    (Map_values (_metricStorageRegistry m)).

(** [collect]: await [Promise.all] of the promises, then
    [result.filter(isNotNullish)]. *)
Definition Meter_collect (this : nat) (collector : MetricCollectorHandle)
    (collectionTime : HrTime) : Run (Promise (list (Maybe MetricData))) :=
  calls ← Meter_collect_map this collector collectionTime;
  mret (Promise_then (filter (λ item, isNotNullish item))
          (Promise_all (call_promise <$> calls))).

(** [collect] reaches a storage through the interface [MetricStorage]
    alone: [metricStorage.collect(...)].  The loop of [collect] as it is
    written, over any implementation [collect_impl] of the method [collect]
    of that interface, a function of the arguments and of the state of the
    storage; [Meter_collect_map] is this loop at [MetricStorage_collect]. *)
Definition collectStorage_of
    (collect_impl : CollectArguments → MetricStorage →
                    Promise (Maybe MetricData) * MetricStorage)
    (metricStorage : nat) (args : CollectArguments) : Run CollectCall :=
  st ← getStorage metricStorage;
  let '(promise, st') := collect_impl args st in
  _ ← setStorage metricStorage st';
  mret {| call_storage := metricStorage;
          call_arguments := args;
          call_promise := promise |}.


(** ** Instruments *)

Definition WritableMetricStorage_recordOne (value : Z) (attributes : Attributes)
    (storage : nat) : Run () :=
  st ← getStorage storage;
  match st with
  | Sync s =>
      setStorage storage (Sync (SyncMetricStorage_record value attributes s))
  | Async _ => λ _, None
  end.

(** Modelled from the spec: the class [MultiMetricStorage] is not among the
    sources.  A write goes to every backing storage, in order. *)
Definition WritableMetricStorage_record (value : Z) (attributes : Attributes)
    (w : WritableMetricStorage) : Run () :=
  match w with
  | SingleStorage storage => WritableMetricStorage_recordOne value attributes storage
  | MultiMetricStorage storages =>
      _ ← mapM (WritableMetricStorage_recordOne value attributes) storages;
      mret ()
  end.

Inductive WriteOutcome :=
  | Written
  | InvalidValue.

(** Modelled from the spec: the instrument classes are not among the
    sources.  A counter refuses a negative value at the write and leaves the
    state as it is; an up-down counter takes any value. *)
Definition Counter_add (value : Z) (attributes : Attributes)
    (counter : SyncInstrument) : Run WriteOutcome :=
  if decide (value < 0) then mret InvalidValue
  else
    _ ← WritableMetricStorage_record value attributes
          (_writableMetricStorage counter);
    mret Written.

Definition UpDownCounter_add (value : Z) (attributes : Attributes)
    (counter : SyncInstrument) : Run WriteOutcome :=
  _ ← WritableMetricStorage_record value attributes
        (_writableMetricStorage counter);
  mret Written.

Definition Histogram_record (value : Z) (attributes : Attributes)
    (histogram : SyncInstrument) : Run WriteOutcome :=
  _ ← WritableMetricStorage_record value attributes
        (_writableMetricStorage histogram);
  mret Written.

(** ** The OTLP metric exporter for the web *)

Definition DEFAULT_COLLECTOR_RESOURCE_PATH : string := "/v1/metrics".

Definition DEFAULT_COLLECTOR_URL : string :=
  "http://localhost:4318" +:+ DEFAULT_COLLECTOR_RESOURCE_PATH.

(** What [getDefaultUrl] reads of the configuration: [config.url], when it
    is a string. *)
Record OTLPExporterConfigBase := {
  config_url : option string
}.

(** What the exporter reads of the environment [getEnv()] returns. *)
Record ENVIRONMENT := {
  OTEL_EXPORTER_OTLP_METRICS_ENDPOINT : string;
  OTEL_EXPORTER_OTLP_ENDPOINT : string;
  OTEL_EXPORTER_OTLP_METRICS_HEADERS : string
}.

(** [OTLPMetricExporter.getDefaultUrl(config)].  The environment and
    [appendResourcePathToUrlIfNotPresent], a function of another package,
    are given. *)
Definition getDefaultUrl (getEnv : ENVIRONMENT)
    (appendResourcePathToUrlIfNotPresent : string → string → string)
    (config : OTLPExporterConfigBase) : string :=
  match config_url config with
  | Some url => url
  | None =>
      if (0 <? String.length (OTEL_EXPORTER_OTLP_METRICS_ENDPOINT getEnv))%nat
      then OTEL_EXPORTER_OTLP_METRICS_ENDPOINT getEnv
      else if (0 <? String.length (OTEL_EXPORTER_OTLP_ENDPOINT getEnv))%nat
      then appendResourcePathToUrlIfNotPresent
             (OTEL_EXPORTER_OTLP_ENDPOINT getEnv)
             DEFAULT_COLLECTOR_RESOURCE_PATH
      else DEFAULT_COLLECTOR_URL
  end.

(** ** The helpers of the exporter tests *)

(** How a helper ends: it returns, an assertion fails with a message, or a
    [TypeError] is thrown. *)
Inductive Outcome :=
  | Returned
  | AssertionError (message : string)
  | TypeError.

(** Statements in sequence: what follows a [throw] does not run. *)
Definition andThen (first : Outcome) (rest : Outcome) : Outcome :=
  match first with
  | Returned => rest
  | thrown => thrown
  end.

(** [assert.strictEqual(actual, expected, message)] *)
Definition assert_strictEqual {A} `{EqDecision A} (actual expected : A)
    (message : string) : Outcome :=
  if decide (actual = expected) then Returned else AssertionError message.

(** [array.forEach(callback)]: a callback that throws ends the loop. *)
Fixpoint forEach {A} (callback : A → Outcome) (array : list A) : Outcome :=
  match array with
  | [] => Returned
  | x :: array' => andThen (callback x) (forEach callback array')
  end.

(** An object with string values, [{ [key: string]: string }]: its own
    properties in the order of [Object.entries]; [object[key]] is
    [Map_get key object], [None] for what is no string. *)
Definition JsObject : Type := list (string * string).

(** [`${object}`]: an object with an own property ["toString"], which is a
    string and cannot be called, has no primitive value; any other one is
    ["[object Object]"]. *)
Definition objectToString (object : JsObject) : option string :=
  match Map_get "toString" object with
  | Some _ => None
  | None => Some "[object Object]"
  end.

(** [ensureHeadersContain(actual, expected)]: the message, a template over
    [actual], is built before the assertion is made. *)
Definition ensureHeadersContain (actual expected : JsObject) : Outcome :=
  forEach (λ entry,
    let k := entry.1 in
    let v := entry.2 in
    match objectToString actual with
    | None => TypeError
    | Some shown =>
        assert_strictEqual (Some v) (Map_get k actual)
          ("Expected " +:+ shown +:+ " to contain " +:+ k +:+ ": " +:+ v)
    end) expected.

(** The request [ensureExportMetricsServiceRequestIsSet] looks at: lists
    and what may be [undefined]. *)
Record InstrumentationLibraryMetrics (Metric : Type) := {
  ilm_instrumentationLibrary : option InstrumentationLibrary;
  ilm_metrics : list Metric
}.
Arguments ilm_instrumentationLibrary {Metric} _.
Arguments ilm_metrics {Metric} _.

Record ResourceMetrics (Metric : Type) := {
  rm_resource : option Resource;
  rm_instrumentationLibraryMetrics :
    option (list (InstrumentationLibraryMetrics Metric))
}.
Arguments rm_resource {Metric} _.
Arguments rm_instrumentationLibraryMetrics {Metric} _.

Record ExportMetricsServiceRequest (Metric : Type) := {
  resourceMetrics : list (ResourceMetrics Metric)
}.
Arguments resourceMetrics {Metric} _.

(** [array[0].property]: of no element there is no property to read. *)
Definition index0 {A} (array : list A) (rest : A → Outcome) : Outcome :=
  match array !! 0%nat with
  | Some x => rest x
  | None => TypeError
  end.

(** [ensureExportMetricsServiceRequestIsSet(json)] *)
Definition ensureExportMetricsServiceRequestIsSet {Metric}
    (json : ExportMetricsServiceRequest Metric) : Outcome :=
  let resourceMetrics := resourceMetrics json in
  andThen
    (assert_strictEqual (length resourceMetrics) 1%nat
       "resourceMetrics has incorrect length")
    (index0 resourceMetrics (λ rm0,
       let resource := rm_resource rm0 in
       andThen
         (assert_strictEqual (bool_decide (is_Some resource)) true
            "resource is missing")
         (let instrumentationLibraryMetrics :=
            rm_instrumentationLibraryMetrics rm0 in
          andThen
            (assert_strictEqual (length <$> instrumentationLibraryMetrics)
               (Some 1%nat) "instrumentationLibraryMetrics is missing")
            (match instrumentationLibraryMetrics with
             | None => TypeError
             | Some ilms =>
                 index0 ilms (λ ilm0,
                   let instrumentationLibrary :=
                     ilm_instrumentationLibrary ilm0 in
                   andThen
                     (assert_strictEqual
                        (bool_decide (is_Some instrumentationLibrary)) true
                        "instrumentationLibrary is missing")
                     (let metrics := ilm_metrics ilm0 in
                      assert_strictEqual (length metrics) 3%nat
                        "Metrics are missing"))
             end)))).

(** * Specification *)

(** Every storage a meter has registered has been allocated. *)
Definition Sdk_wf (s : Sdk) : Prop :=
  Forall (λ m,
    Forall (λ r, (r < length (storageObjects s))%nat)
      (Map_values (_metricStorageRegistry m))) (meterObjects s).

(** The arguments [Meter.collect] passes to every storage. *)
Definition collectArguments (shared : MeterProviderSharedState) (m : Meter)
    (collector : MetricCollectorHandle) (collectionTime : HrTime)
    : CollectArguments :=
  {| arg_collector := collector;
     arg_collectors := metricCollectors shared;
     arg_resource := resource shared;
     arg_instrumentationLibrary := _instrumentationLibrary m;
     arg_sdkStartTime := sdkStartTime shared;
     arg_collectionTime := collectionTime |}.

(** The registry of a meter after the storages of [n] views were
    registered under one name: every [set] replaced the one before. *)
Definition registryAfter (name : string) (first n : nat)
    (registry : list (string * nat)) : list (string * nat) :=
  match n with
  | O => registry
  | S n' => Map_set name (first + n')%nat registry
  end.

(** The store after a registration: the storages are allocated in the order
    of the views, the registry of the meter changes, nothing else does. *)
Definition registered (this : nat) (m : Meter) (name : string)
    (storages : list MetricStorage) (s : Sdk) : Sdk :=
  {| sharedState := sharedState s;
     meterObjects :=
       <[this := {| _metricStorageRegistry :=
                      registryAfter name (length (storageObjects s))
                        (length storages) (_metricStorageRegistry m);
                    _instrumentationLibrary := _instrumentationLibrary m |}]>
         (meterObjects s);
     storageObjects := storageObjects s ++ storages |}.

(** What [_registerMetricStorage] returns for the storages it created. *)
Definition handleOf (storages : list nat) : WritableMetricStorage :=
  match storages with
  | [storage] => SingleStorage storage
  | _ => MultiMetricStorage storages
  end.

(** A registration of an instrument with a meter: by
    [_registerMetricStorage] or by [_registerAsyncMetricStorage]. *)
Inductive Registration :=
  | SyncRegistration (descriptor : InstrumentDescriptor)
  | AsyncRegistration (descriptor : InstrumentDescriptor)
      (callback : ObservableCallback).

Definition Registration_descriptor (registration : Registration)
    : InstrumentDescriptor :=
  match registration with
  | SyncRegistration descriptor => descriptor
  | AsyncRegistration descriptor _ => descriptor
  end.

Definition register (this : nat) (registration : Registration) : Run () :=
  match registration with
  | SyncRegistration descriptor =>
      _ ← Meter__registerMetricStorage this descriptor; mret ()
  | AsyncRegistration descriptor callback =>
      Meter__registerAsyncMetricStorage this descriptor callback
  end.

(** The storage a registration creates for a view. *)
Definition Registration_storage (registration : Registration) (view : View)
    : MetricStorage :=
  match registration with
  | SyncRegistration descriptor =>
      Sync (SyncMetricStorage_create view descriptor)
  | AsyncRegistration descriptor callback =>
      Async (AsyncMetricStorage_create view descriptor callback)
  end.



(** The storages the meters of a store have registered, meter by meter. *)
Definition registeredStorages (s : Sdk) : list nat :=
  concat ((λ m, Map_values (_metricStorageRegistry m)) <$> meterObjects s).

(** The invariant of a store: every registered storage is allocated, a
    registry has one entry per name, and no storage is registered twice,
    be it by one meter or by two. *)
Definition Sdk_inv (s : Sdk) : Prop :=
  Sdk_wf s ∧
  Forall (λ m, NoDup (_metricStorageRegistry m).*1) (meterObjects s) ∧
  NoDup (registeredStorages s).

(** The three methods that create an observable instrument, with the kind
    of instrument each creates. *)
Definition observableCreations
    : list ((nat → string → ObservableCallback → MetricOptions → Run ())
            * InstrumentType) :=
  [(Meter_createObservableGauge, OBSERVABLE_GAUGE);
   (Meter_createObservableCounter, OBSERVABLE_COUNTER);
   (Meter_createObservableUpDownCounter, OBSERVABLE_UP_DOWN_COUNTER)].

(** The request the exporter tests expect: one resource with its metrics,
    one instrumentation library with three metrics. *)
Definition requestIsSet {Metric} (json : ExportMetricsServiceRequest Metric)
    : Prop :=
  ∃ resource library metrics,
    length metrics = 3%nat ∧
    resourceMetrics json =
      [{| rm_resource := Some resource;
          rm_instrumentationLibraryMetrics :=
            Some [{| ilm_instrumentationLibrary := Some library;
                     ilm_metrics := metrics |}] |}].

(** * Example stores *)

Definition exampleLibrary : InstrumentationLibrary :=
  {| library_name := "default"; library_version := "0.0.1" |}.

Definition exampleOptions : MetricOptions :=
  {| options_description := "sample description";
     options_unit := "1";
     options_valueType := INT |}.

(** The store of a provider that has no meter yet. *)
Definition newSdk (registry : ViewRegistry) : Sdk :=
  {| sharedState :=
       {| resource := {| resource_attributes := {["service" := AttrString "ui"]} |};
          sdkStartTime := (1592602232, 694000000);
          viewRegistry := registry;
          metricCollectors := [];
          meters := [] |};
     meterObjects := [];
     storageObjects := [] |}.

Definition cumulativeCollector : MetricCollectorHandle :=
  {| collector_id := 0; aggregationTemporality := CUMULATIVE |}.

Definition deltaCollector : MetricCollectorHandle :=
  {| collector_id := 1; aggregationTemporality := DELTA |}.

Definition exampleTime : HrTime := (1592602240, 0).

(** The store a program leaves. *)
Definition storeAfter {A} (program : Run A) (s : Sdk) : Sdk :=
  match program s with
  | Some (_, s') => s'
  | None => s
  end.

(** A view that renames the instrument. *)
Definition renamingView (name : string) : RegisteredView :=
  {| selector_name := AnyName;
     selector_type := None;
     selector_meter := None;
     registered_view :=
       {| view_name := Some name;
          view_description := None;
          view_attributeKeys := None;
          view_boundaries := None |} |}.

(** The view of the histogram of the exporter tests: boundaries
    [[0, 100]]. *)
Definition boundariesView (boundaries : list Boundary) : RegisteredView :=
  {| selector_name := AnyName;
     selector_type := Some HISTOGRAM;
     selector_meter := None;
     registered_view :=
       {| view_name := None;
          view_description := None;
          view_attributeKeys := None;
          view_boundaries := Some boundaries |} |}.

(** A view registry whose [findViews] finds nothing. *)
Definition noViews : ViewRegistry := {| findViews _ _ := [] |}.

(** A meter with an observable gauge whose callback throws and a counter
    that was written to. *)
Definition failingCallback : ObservableCallback := λ _, Thrown "callback failed".

Definition oneFailingStorage : Sdk :=
  storeAfter
    (meter ← Meter_new exampleLibrary;
     _ ← Meter_createObservableGauge meter "A" failingCallback exampleOptions;
     counter ← Meter_createCounter meter "B" exampleOptions;
     Counter_add 1 ∅ counter)
    (newSdk (ViewRegistry_of [])).

(** A meter with two counters, one of them written to. *)
Definition twoCounters : Sdk :=
  storeAfter
    (meter ← Meter_new exampleLibrary;
     _ ← Meter_createCounter meter "A" exampleOptions;
     counter ← Meter_createCounter meter "B" exampleOptions;
     Counter_add 1 ∅ counter)
    (newSdk (ViewRegistry_of [])).

(** A store with one meter and no instrument. *)
Definition oneMeter (registry : ViewRegistry) : Sdk :=
  storeAfter (Meter_new exampleLibrary) (newSdk registry).

(** Two meters, each with a counter that was written to. *)
Definition twoMeters : Sdk :=
  storeAfter
    (meter1 ← Meter_new exampleLibrary;
     meter2 ← Meter_new exampleLibrary;
     counter1 ← Meter_createCounter meter1 "A" exampleOptions;
     counter2 ← Meter_createCounter meter2 "A" exampleOptions;
     _ ← Counter_add 1 ∅ counter1;
     Counter_add 2 ∅ counter2)
    (newSdk (ViewRegistry_of [])).

(** * Properties *)

(** ** Promises and maps *)

Lemma Promise_all_Resolved {T} (ps : list (Promise T)) (l : list T) :
  Promise_all ps = Resolved l ↔ ps = Resolved <$> l.
Proof.
  revert l. induction ps as [|[v|e] ps IH]; intros l; simpl.
  - split; [intros [= <-]; done|]. by destruct l.
  - destruct (Promise_all ps) as [l'|e'] eqn:E; simpl.
    + split.
      * intros [= <-]. simpl. f_equal. by apply IH.
      * destruct l as [|x l'']; [done|]. intros [= -> H]. f_equal. f_equal.
        apply IH in H. congruence.
    + split; [done|]. destruct l as [|x l'']; [done|]. intros [= -> H].
      apply IH in H. done.
  - split; [done|]. by destruct l.
Qed.

Lemma Promise_all_Rejected {T} (ps : list (Promise T)) :
  (∃ e, Rejected e ∈ ps) → ∃ e, Promise_all ps = Rejected e.
Proof.
  intros [e He]. induction ps as [|[v|e'] ps IH]; simpl.
  - by apply elem_of_nil in He.
  - apply elem_of_cons in He as [?|He]; [done|].
    destruct (IH He) as [e0 ->]. by exists e0.
  - by eexists.
Qed.

Lemma Map_get_set {V} (k : string) (v : V) m : Map_get k (Map_set k v m) = Some v.
Proof.
  induction m as [|[k' v'] m IH]; simpl.
  - by rewrite decide_True.
  - destruct (decide (k' = k)); simpl.
    + by rewrite decide_True.
    + by rewrite decide_False.
Qed.

Lemma Map_set_set {V} (k : string) (v1 v2 : V) m :
  Map_set k v2 (Map_set k v1 m) = Map_set k v2 m.
Proof.
  induction m as [|[k' v'] m IH]; simpl.
  - by rewrite decide_True.
  - destruct (decide (k' = k)); simpl.
    + by rewrite decide_True.
    + rewrite decide_False by done. by rewrite IH.
Qed.

Lemma Map_values_set {V} (k : string) (v x : V) m :
  x ∈ Map_values (Map_set k v m) → x = v ∨ x ∈ Map_values m.
Proof.
  unfold Map_values. induction m as [|[k' v'] m IH]; simpl.
  - rewrite list_elem_of_singleton. auto.
  - destruct (decide (k' = k)); simpl; rewrite !elem_of_cons; tauto.
Qed.

Lemma Map_values_set_elem {V} (k : string) (v : V) m :
  v ∈ Map_values (Map_set k v m).
Proof.
  unfold Map_values. induction m as [|[k' v'] m IH]; simpl.
  - apply list_elem_of_singleton. done.
  - destruct (decide (k' = k)); simpl; rewrite !elem_of_cons; auto.
Qed.

Lemma Map_values_set_length {V} (k : string) (v : V) m :
  (length (Map_values (Map_set k v m)) ≤ S (length m))%nat.
Proof.
  unfold Map_values. rewrite length_fmap.
  induction m as [|[k' v'] m IH]; simpl; [lia|].
  destruct (decide (k' = k)); simpl; lia.
Qed.

(** ** Collection *)

Lemma Sdk_wf_lookup (s : Sdk) (this : nat) (m : Meter) :
  Sdk_wf s →
  meterObjects s !! this = Some m →
  Forall (λ r, (r < length (storageObjects s))%nat)
    (Map_values (_metricStorageRegistry m)).
Proof. intros Hwf Hm. exact (Forall_lookup_1 _ _ _ _ Hwf Hm). Qed.

Ltac run_unfold :=
  unfold mbind, Run_bind, mret, Run_ret, getShared, getMeter, setMeter,
    getStorage, setStorage, newStorage.

Lemma collectStorage_spec (r : nat) (args : CollectArguments) (s : Sdk)
    (st : MetricStorage) :
  storageObjects s !! r = Some st →
  collectStorage r args s =
    Some ({| call_storage := r;
             call_arguments := args;
             call_promise := (MetricStorage_collect args st).1 |},
          {| sharedState := sharedState s;
             meterObjects := meterObjects s;
             storageObjects :=
               <[r := (MetricStorage_collect args st).2]> (storageObjects s) |}).
Proof.
  intros H. unfold collectStorage. run_unfold. rewrite H. simpl.
  by destruct (MetricStorage_collect args st).
Qed.

Section collect_loop.
Context (this : nat) (m : Meter) (collector : MetricCollectorHandle)
        (collectionTime : HrTime).

Let body : nat → Run CollectCall := λ metricStorage,
  shared ← getShared;
  m' ← getMeter this;
  collectStorage metricStorage
    {| arg_collector := collector;
       arg_collectors := metricCollectors shared;
       arg_resource := resource shared;
       arg_instrumentationLibrary := _instrumentationLibrary m';
       arg_sdkStartTime := sdkStartTime shared;
       arg_collectionTime := collectionTime |}.

Lemma collect_loop (refs : list nat) : ∀ s,
  meterObjects s !! this = Some m →
  Forall (λ r, (r < length (storageObjects s))%nat) refs →
  ∃ calls s',
    mapM body refs s = Some (calls, s') ∧
    sharedState s' = sharedState s ∧
    meterObjects s' = meterObjects s ∧
    length (storageObjects s') = length (storageObjects s) ∧
    call_storage <$> calls = refs ∧
    Forall (λ call, call_arguments call =
              collectArguments (sharedState s) m collector collectionTime)
      calls ∧
    (∀ r, r ∉ refs → storageObjects s' !! r = storageObjects s !! r) ∧
    (∀ l1 r l2, refs = l1 ++ r :: l2 → r ∉ l1 →
       ∃ st call,
         storageObjects s !! r = Some st ∧
         calls !! length l1 = Some call ∧
         call_storage call = r ∧
         call_promise call =
           (MetricStorage_collect
              (collectArguments (sharedState s) m collector collectionTime)
              st).1).
Proof.
  induction refs as [|r refs IH]; intros s Hm Hrefs.
  - exists [], s. simpl. split_and!; try done.
    intros [|] ? ? ?; done.
  - apply Forall_cons in Hrefs as [Hr Hrefs].
    destruct (lookup_lt_is_Some_2 _ _ Hr) as [st Hst].
    set (args := collectArguments (sharedState s) m collector collectionTime).
    set (s1 := {| sharedState := sharedState s;
                  meterObjects := meterObjects s;
                  storageObjects :=
                    <[r := (MetricStorage_collect args st).2]>
                      (storageObjects s) |}).
    destruct (IH s1) as (calls & s' & Hrun & Hsh & Hme & Hlen & Hst' & Hargs
                         & Hframe & Hfirst).
    { done. }
    { simpl. by rewrite length_insert. }
    exists ({| call_storage := r; call_arguments := args;
               call_promise := (MetricStorage_collect args st).1 |} :: calls), s'.
    split_and!.
    + simpl. unfold mbind at 1, Run_bind at 1.
      assert (body r s = Some ({| call_storage := r; call_arguments := args;
                 call_promise := (MetricStorage_collect args st).1 |}, s1))
        as ->.
      { unfold body. run_unfold. rewrite Hm. simpl.
        by rewrite (collectStorage_spec _ _ _ _ Hst). }
      unfold mbind, Run_bind. rewrite Hrun. done.
    + by rewrite Hsh.
    + by rewrite Hme.
    + rewrite Hlen. simpl. by rewrite length_insert.
    + by rewrite fmap_cons, Hst'.
    + constructor; [done|]. exact Hargs.
    + intros r' Hr'. apply not_elem_of_cons in Hr' as [Hne Hr'].
      rewrite Hframe by done. simpl. by rewrite list_lookup_insert_ne.
    + intros l1 r' l2 Heq Hnotin. destruct l1 as [|r0 l1]; simpl in Heq.
      * injection Heq as <- _. eexists st, _. split_and!; done.
      * injection Heq as <- ->. apply not_elem_of_cons in Hnotin as [Hne Hnotin].
        destruct (Hfirst l1 r' l2 eq_refl Hnotin) as (st' & call & H1 & H2 & H3 & H4).
        exists st', call. split_and!; try done.
        simpl in H1. by rewrite list_lookup_insert_ne in H1.
Qed.
End collect_loop.

Lemma Meter_collect_map_spec (this : nat) (m : Meter)
    (collector : MetricCollectorHandle) (collectionTime : HrTime) (s : Sdk) :
  Sdk_wf s →
  meterObjects s !! this = Some m →
  ∃ calls s',
    Meter_collect_map this collector collectionTime s = Some (calls, s') ∧
    sharedState s' = sharedState s ∧
    meterObjects s' = meterObjects s ∧
    length (storageObjects s') = length (storageObjects s) ∧
    call_storage <$> calls = Map_values (_metricStorageRegistry m) ∧
    Forall (λ call, call_arguments call =
              collectArguments (sharedState s) m collector collectionTime)
      calls ∧
    (∀ r, r ∉ Map_values (_metricStorageRegistry m) →
       storageObjects s' !! r = storageObjects s !! r) ∧
    (∀ l1 r l2, Map_values (_metricStorageRegistry m) = l1 ++ r :: l2 → r ∉ l1 →
       ∃ st call,
         storageObjects s !! r = Some st ∧
         calls !! length l1 = Some call ∧
         call_storage call = r ∧
         call_promise call =
           (MetricStorage_collect
              (collectArguments (sharedState s) m collector collectionTime)
              st).1).
Proof.
  intros Hwf Hm.
  destruct (collect_loop this m collector collectionTime
              (Map_values (_metricStorageRegistry m)) s Hm
              (Sdk_wf_lookup _ _ _ Hwf Hm))
    as (calls & s' & Hrun & H).
  exists calls, s'. split; [|exact H].
  unfold Meter_collect_map. unfold mbind at 1, Run_bind at 1.
  unfold getMeter at 1. rewrite Hm. simpl. exact Hrun.
Qed.

Lemma Meter_collect_unfold (this : nat) (collector : MetricCollectorHandle)
    (collectionTime : HrTime) (s : Sdk) calls s' :
  Meter_collect_map this collector collectionTime s = Some (calls, s') →
  Meter_collect this collector collectionTime s =
    Some (Promise_then (filter (λ item, isNotNullish item))
            (Promise_all (call_promise <$> calls)), s').
Proof.
  intros H. unfold Meter_collect, mbind, Run_bind. by rewrite H.
Qed.

(** ** Registration *)

Lemma registered_step (this : nat) (m : Meter) (name : string)
    (st : MetricStorage) (storages : list MetricStorage) (s : Sdk) :
  registered this
    {| _metricStorageRegistry :=
         Map_set name (length (storageObjects s)) (_metricStorageRegistry m);
       _instrumentationLibrary := _instrumentationLibrary m |}
    name storages
    {| sharedState := sharedState s;
       meterObjects :=
         <[this := {| _metricStorageRegistry :=
                        Map_set name (length (storageObjects s))
                          (_metricStorageRegistry m);
                      _instrumentationLibrary := _instrumentationLibrary m |}]>
           (meterObjects s);
       storageObjects := storageObjects s ++ [st] |}
  = registered this m name (st :: storages) s.
Proof.
  unfold registered. simpl. rewrite list_insert_insert_eq, <- app_assoc. simpl.
  f_equal. f_equal. f_equal. rewrite length_app. simpl.
  destruct storages as [|st' storages]; simpl.
  - f_equal. lia.
  - rewrite Map_set_set. f_equal. lia.
Qed.

Section register_loop.
Context (this : nat) (name : string) (mk : View → MetricStorage).

Lemma register_loop_sync (views : list View) : ∀ s m,
  meterObjects s !! this = Some m →
  mapM (λ view,
    storage ← newStorage (mk view);
    _ ← registrySet this name storage;
    mret storage) views s
  = Some (seq (length (storageObjects s)) (length views),
          registered this m name (mk <$> views) s).
Proof.
  induction views as [|view views IH]; intros s m Hm.
  - simpl. unfold registered. simpl. rewrite app_nil_r.
    rewrite list_insert_id; [by destruct s|]. rewrite Hm. by destruct m.
  - simpl. unfold registrySet. run_unfold. simpl. rewrite Hm. simpl.
    run_unfold.
    erewrite IH; [|simpl; apply list_lookup_insert_eq; by eapply lookup_lt_Some].
    simpl. rewrite length_app. simpl. rewrite Nat.add_1_r.
    by rewrite <- registered_step with (st := mk view).
Qed.

Lemma register_loop_async (views : list View) : ∀ s m,
  meterObjects s !! this = Some m →
  mapM (λ view,
    storage ← newStorage (mk view);
    registrySet this name storage) views s
  = Some (replicate (length views) (),
          registered this m name (mk <$> views) s).
Proof.
  induction views as [|view views IH]; intros s m Hm.
  - simpl. unfold registered. simpl. rewrite app_nil_r.
    rewrite list_insert_id; [by destruct s|]. rewrite Hm. by destruct m.
  - simpl. unfold registrySet. run_unfold. simpl. rewrite Hm. simpl.
    run_unfold.
    erewrite IH; [|simpl; apply list_lookup_insert_eq; by eapply lookup_lt_Some].
    simpl. by rewrite <- registered_step with (st := mk view).
Qed.
End register_loop.

Lemma Meter__registerMetricStorage_spec (this : nat) (m : Meter)
    (d : InstrumentDescriptor) (s : Sdk) :
  meterObjects s !! this = Some m →
  let views :=
    findViews (viewRegistry (sharedState s)) d (_instrumentationLibrary m) in
  Meter__registerMetricStorage this d s =
    Some (handleOf (seq (length (storageObjects s)) (length views)),
          registered this m (descriptor_name d)
            ((λ view, Sync (SyncMetricStorage_create view d)) <$> views) s).
Proof.
  intros Hm views. unfold Meter__registerMetricStorage.
  unfold mbind at 1, Run_bind at 1, getMeter at 1. rewrite Hm. simpl.
  unfold mbind at 1, Run_bind at 1, getShared at 1.
  unfold mbind at 1, Run_bind at 1.
  rewrite (register_loop_sync this (descriptor_name d)
             (λ view, Sync (SyncMetricStorage_create view d)) _ s m Hm).
  done.
Qed.

Lemma Meter__registerAsyncMetricStorage_spec (this : nat) (m : Meter)
    (d : InstrumentDescriptor) (callback : ObservableCallback) (s : Sdk) :
  meterObjects s !! this = Some m →
  let views :=
    findViews (viewRegistry (sharedState s)) d (_instrumentationLibrary m) in
  Meter__registerAsyncMetricStorage this d callback s =
    Some ((),
          registered this m (descriptor_name d)
            ((λ view, Async (AsyncMetricStorage_create view d callback))
               <$> views) s).
Proof.
  intros Hm views. unfold Meter__registerAsyncMetricStorage.
  unfold mbind at 1, Run_bind at 1, getMeter at 1. rewrite Hm. simpl.
  unfold mbind at 1, Run_bind at 1, getShared at 1.
  unfold mbind at 1, Run_bind at 1.
  rewrite (register_loop_async this (descriptor_name d)
             (λ view, Async (AsyncMetricStorage_create view d callback)) _ s m Hm).
  done.
Qed.

Lemma registered_meter (this : nat) (m : Meter) (name : string)
    (storages : list MetricStorage) (s : Sdk) :
  meterObjects s !! this = Some m →
  meterObjects (registered this m name storages s) !! this =
    Some {| _metricStorageRegistry :=
              registryAfter name (length (storageObjects s)) (length storages)
                (_metricStorageRegistry m);
            _instrumentationLibrary := _instrumentationLibrary m |}.
Proof.
  intros Hm. simpl. apply list_lookup_insert_eq. by eapply lookup_lt_Some.
Qed.

Lemma registryAfter_values (name : string) (first n : nat) registry (r : nat) :
  r ∈ Map_values (registryAfter name first n registry) →
  r ∈ Map_values registry ∨ (n ≠ 0%nat ∧ r = (first + n - 1)%nat).
Proof.
  destruct n as [|n]; simpl; [auto|].
  intros [->|H]%Map_values_set; [right|by left]. split; lia.
Qed.

Lemma registered_wf (this : nat) (m : Meter) (name : string)
    (storages : list MetricStorage) (s : Sdk) :
  Sdk_wf s →
  meterObjects s !! this = Some m →
  Sdk_wf (registered this m name storages s).
Proof.
  intros Hwf Hm. apply Forall_lookup_2. intros this' m' Hm'.
  simpl in *. rewrite length_app. apply Forall_forall. intros r Hr.
  destruct (decide (this' = this)) as [->|Hne].
  - rewrite list_lookup_insert_eq in Hm' by (by eapply lookup_lt_Some).
    injection Hm' as <-. simpl in Hr.
    apply registryAfter_values in Hr as [Hr|[Hn ->]].
    + pose proof (Sdk_wf_lookup _ _ _ Hwf Hm) as H. rewrite Forall_forall in H.
      specialize (H _ Hr). lia.
    + lia.
  - rewrite list_lookup_insert_ne in Hm' by done.
    pose proof (Sdk_wf_lookup _ _ _ Hwf Hm') as H. rewrite Forall_forall in H.
    specialize (H _ Hr). lia.
Qed.

(** ** Writes *)

Lemma WritableMetricStorage_recordOne_spec (value : Z) (attributes : Attributes)
    (r : nat) (st : SyncMetricStorage) (s : Sdk) :
  storageObjects s !! r = Some (Sync st) →
  WritableMetricStorage_recordOne value attributes r s =
    Some ((), {| sharedState := sharedState s;
                 meterObjects := meterObjects s;
                 storageObjects :=
                   <[r := Sync (SyncMetricStorage_record value attributes st)]>
                     (storageObjects s) |}).
Proof.
  intros H. unfold WritableMetricStorage_recordOne. run_unfold. by rewrite H.
Qed.

Lemma record_loop (value : Z) (attributes : Attributes)
    (ss : list SyncMetricStorage) : ∀ pre post s,
  storageObjects s = pre ++ (Sync <$> ss) ++ post →
  mapM (WritableMetricStorage_recordOne value attributes)
    (seq (length pre) (length ss)) s =
    Some (replicate (length ss) (),
          {| sharedState := sharedState s;
             meterObjects := meterObjects s;
             storageObjects :=
               pre ++ (Sync <$> (SyncMetricStorage_record value attributes <$> ss))
                   ++ post |}).
Proof.
  induction ss as [|st ss IH]; intros pre post s Hs.
  - simpl in *. rewrite <- Hs. by destruct s.
  - simpl. unfold mbind at 1, Run_bind at 1.
    rewrite (WritableMetricStorage_recordOne_spec _ _ _ st).
    2:{ rewrite Hs, fmap_cons. simpl. by apply list_lookup_middle. }
    unfold mbind at 1, Run_bind at 1.
    replace (S (length pre)) with
      (length (pre ++ [Sync (SyncMetricStorage_record value attributes st)]))
      by (rewrite length_app; simpl; lia).
    rewrite (IH _ post).
    + simpl. rewrite <- app_assoc. done.
    + simpl. rewrite Hs. rewrite fmap_cons.
      rewrite <- app_assoc. simpl.
      replace (length pre) with (length pre + 0)%nat at 1 by lia.
      by rewrite (insert_app_r _ _ 0).
Qed.

Lemma WritableMetricStorage_record_spec (value : Z) (attributes : Attributes)
    (ss : list SyncMetricStorage) (pre : list MetricStorage) (s : Sdk) :
  storageObjects s = pre ++ (Sync <$> ss) →
  WritableMetricStorage_record value attributes
    (handleOf (seq (length pre) (length ss))) s =
    Some ((), {| sharedState := sharedState s;
                 meterObjects := meterObjects s;
                 storageObjects :=
                   pre ++ (Sync <$> (SyncMetricStorage_record value attributes
                                       <$> ss)) |}).
Proof.
  intros Hs.
  pose proof (record_loop value attributes ss pre [] s) as Hloop.
  rewrite !app_nil_r in Hloop. specialize (Hloop Hs).
  destruct ss as [|st [|st' ss]].
  - simpl in *. unfold mbind, Run_bind. by rewrite Hloop.
  - simpl in *. unfold mbind, Run_bind, mret, Run_ret in Hloop.
    destruct (WritableMetricStorage_recordOne value attributes (length pre) s)
      as [[[] s']|]; [|done]. by injection Hloop as ->.
  - change (handleOf _) with
      (MultiMetricStorage (seq (length pre) (length (st :: st' :: ss)))).
    unfold WritableMetricStorage_record, mbind, Run_bind. by rewrite Hloop.
Qed.

Lemma registered_record (this : nat) (m : Meter) (name : string)
    (value : Z) (attributes : Attributes) (ss : list SyncMetricStorage)
    (s : Sdk) :
  WritableMetricStorage_record value attributes
    (handleOf (seq (length (storageObjects s)) (length ss)))
    (registered this m name (Sync <$> ss) s) =
    Some ((), registered this m name
                (Sync <$> (SyncMetricStorage_record value attributes <$> ss)) s).
Proof.
  rewrite (WritableMetricStorage_record_spec _ _ ss (storageObjects s)) by done.
  unfold registered. simpl. by rewrite !length_fmap.
Qed.



Lemma handleOf_single (first : nat) : handleOf (seq first 1) = SingleStorage first.
Proof. reflexivity. Qed.

Lemma handleOf_multi (first n : nat) :
  (1 < n)%nat → handleOf (seq first n) = MultiMetricStorage (seq first n).
Proof. intros H. destruct n as [|[|n]]; [lia..|done]. Qed.


(** ** The first collection after a write *)



Lemma Meter_collect_registered (this : nat) (m : Meter)
    (collector : MetricCollectorHandle) (collectionTime : HrTime) (s : Sdk)
    (storage : nat) (st : MetricStorage) :
  Sdk_wf s →
  meterObjects s !! this = Some m →
  storage ∈ Map_values (_metricStorageRegistry m) →
  storageObjects s !! storage = Some st →
  ∃ calls s' call,
    Meter_collect_map this collector collectionTime s = Some (calls, s') ∧
    call_storage <$> calls = Map_values (_metricStorageRegistry m) ∧
    call ∈ calls ∧
    call_storage call = storage ∧
    call_promise call =
      (MetricStorage_collect
         (collectArguments (sharedState s) m collector collectionTime) st).1.
Proof.
  intros Hwf Hm Hin Hst.
  destruct (Meter_collect_map_spec this m collector collectionTime s Hwf Hm)
    as (calls & s' & Hrun & _ & _ & _ & Hrefs & _ & _ & Hfirst).
  apply list_elem_of_split_l in Hin as (l1 & l2 & Hsplit & Hnotin).
  destruct (Hfirst l1 storage l2 Hsplit Hnotin)
    as (st' & call & Hst' & Hcall & Hstorage & Hpromise).
  rewrite Hst in Hst'. injection Hst' as <-.
  exists calls, s', call. split_and!; try done.
  by eapply list_elem_of_lookup_2.
Qed.

Lemma Meter_collect_result_contains (calls : list CollectCall)
    (call : CollectCall) (data : MetricData)
    (result : list (Maybe MetricData)) :
  call ∈ calls →
  call_promise call = Resolved (Just data) →
  Promise_then (filter (λ item, isNotNullish item))
    (Promise_all (call_promise <$> calls)) = Resolved result →
  Just data ∈ result.
Proof.
  intros Hcall Hpromise Hresult.
  destruct (Promise_all (call_promise <$> calls)) as [results|e] eqn:Hall;
    [|done].
  injection Hresult as <-. apply Promise_all_Resolved in Hall.
  apply list_elem_of_filter. split; [done|].
  assert (Resolved (Just data) ∈ Resolved <$> results) as Hin.
  { rewrite <- Hall, <- Hpromise. by apply list_elem_of_fmap_2. }
  apply list_elem_of_fmap in Hin as (item & [= ->] & Hin). exact Hin.
Qed.


(** The creation of a synchronous instrument, by any of the three
    methods. *)
Lemma Meter_create_spec (this : nat) (m : Meter) (name : string)
    (options : MetricOptions) (s : Sdk)
    (create : nat → string → MetricOptions → Run SyncInstrument)
    (type : InstrumentType) :
  meterObjects s !! this = Some m →
  (create, type) ∈ [(Meter_createCounter, COUNTER);
                    (Meter_createUpDownCounter, UP_DOWN_COUNTER);
                    (Meter_createHistogram, HISTOGRAM)] →
  let descriptor := createInstrumentDescriptor name type options in
  let views :=
    findViews (viewRegistry (sharedState s)) descriptor
      (_instrumentationLibrary m) in
  create this name options s =
    Some ({| _writableMetricStorage :=
               handleOf (seq (length (storageObjects s)) (length views));
             _descriptor := descriptor |},
          registered this m name
            ((λ view, Sync (SyncMetricStorage_create view descriptor))
               <$> views) s).
Proof.
  intros Hm Hcreate descriptor views.
  pose proof (Meter__registerMetricStorage_spec this m descriptor s Hm) as Hreg.
  simpl in Hreg. fold views in Hreg.
  rewrite !elem_of_cons in Hcreate.
  destruct Hcreate as [[= -> ->]|[[= -> ->]|[[= -> ->]|Hnil]]];
    [| | |by apply elem_of_nil in Hnil].
  - unfold Meter_createCounter, mbind, Run_bind. fold descriptor.
    by rewrite Hreg.
  - unfold Meter_createUpDownCounter, mbind, Run_bind. fold descriptor.
    by rewrite Hreg.
  - unfold Meter_createHistogram, mbind, Run_bind. fold descriptor.
    by rewrite Hreg.
Qed.

Lemma register_spec (this : nat) (m : Meter) (registration : Registration)
    (s : Sdk) :
  meterObjects s !! this = Some m →
  register this registration s =
    Some ((),
          registered this m
            (descriptor_name (Registration_descriptor registration))
            (Registration_storage registration <$>
               findViews (viewRegistry (sharedState s))
                 (Registration_descriptor registration)
                 (_instrumentationLibrary m)) s).
Proof.
  intros Hm. destruct registration as [descriptor|descriptor callback]; simpl.
  - unfold mbind, Run_bind.
    by rewrite (Meter__registerMetricStorage_spec this m descriptor s Hm).
  - by rewrite (Meter__registerAsyncMetricStorage_spec this m descriptor
                  callback s Hm).
Qed.

(** ** The invariant of the store *)

Lemma Sdk_wf_intro (s : Sdk) :
  (∀ this m, meterObjects s !! this = Some m →
     Forall (λ r, (r < length (storageObjects s))%nat)
       (Map_values (_metricStorageRegistry m))) →
  Sdk_wf s.
Proof. intros H. by apply Forall_lookup_2. Qed.

Lemma Sdk_wf_frame (s s' : Sdk) :
  Sdk_wf s →
  meterObjects s' = meterObjects s →
  (length (storageObjects s) ≤ length (storageObjects s'))%nat →
  Sdk_wf s'.
Proof.
  intros Hwf Hmeters Hlen. apply Sdk_wf_intro. intros this m Hm.
  rewrite Hmeters in Hm. pose proof (Sdk_wf_lookup _ _ _ Hwf Hm) as H.
  eapply Forall_impl; [exact H|]. simpl. intros r Hr. lia.
Qed.

Lemma newSdk_wf (registry : ViewRegistry) : Sdk_wf (newSdk registry).
Proof. constructor. Qed.

Lemma Meter_new_wf (instrumentationLibrary : InstrumentationLibrary)
    (s s' : Sdk) (this : nat) :
  Sdk_wf s →
  Meter_new instrumentationLibrary s = Some (this, s') →
  Sdk_wf s'.
Proof.
  intros Hwf [= <- <-]. unfold Sdk_wf in *. simpl.
  apply Forall_app. split; [exact Hwf|]. by repeat constructor.
Qed.

Lemma register_wf (this : nat) (registration : Registration) (s s' : Sdk) :
  Sdk_wf s →
  register this registration s = Some ((), s') →
  Sdk_wf s'.
Proof.
  intros Hwf Hrun. destruct (meterObjects s !! this) as [m|] eqn:Hm.
  - rewrite (register_spec this m registration s Hm) in Hrun.
    injection Hrun as <-. by apply registered_wf.
  - destruct registration; simpl in Hrun;
      unfold Meter__registerMetricStorage, Meter__registerAsyncMetricStorage,
        mbind, Run_bind, getMeter in Hrun;
      by rewrite Hm in Hrun.
Qed.

Lemma WritableMetricStorage_recordOne_frame (value : Z)
    (attributes : Attributes) (storage : nat) (s s' : Sdk) :
  WritableMetricStorage_recordOne value attributes storage s = Some ((), s') →
  meterObjects s' = meterObjects s ∧
  length (storageObjects s') = length (storageObjects s).
Proof.
  unfold WritableMetricStorage_recordOne. run_unfold.
  destruct (storageObjects s !! storage) as [[st|st]|]; simpl; [|done..].
  intros [= <-]. simpl. by rewrite length_insert.
Qed.

Lemma WritableMetricStorage_record_wf (value : Z) (attributes : Attributes)
    (w : WritableMetricStorage) (s s' : Sdk) :
  Sdk_wf s →
  WritableMetricStorage_record value attributes w s = Some ((), s') →
  Sdk_wf s'.
Proof.
  intros Hwf Hrun.
  assert (meterObjects s' = meterObjects s ∧
          length (storageObjects s') = length (storageObjects s)) as [H1 H2].
  { destruct w as [storage|storages]; simpl in Hrun.
    - by eapply WritableMetricStorage_recordOne_frame.
    - unfold mbind, Run_bind, mret, Run_ret in Hrun.
      destruct (mapM _ storages s) as [[units s'']|] eqn:Hloop; [|done].
      injection Hrun as <-. clear Hwf.
      revert s units Hloop. induction storages as [|storage storages IH];
        intros s units Hloop; simpl in Hloop.
      + by injection Hloop as _ <-.
      + unfold mbind, Run_bind, mret, Run_ret in Hloop.
        destruct (WritableMetricStorage_recordOne value attributes storage s)
          as [[[] s1]|] eqn:Hone; [|done].
        destruct (mapM _ storages s1) as [[units' s2]|] eqn:Hrest; [|done].
        injection Hloop as _ <-.
        apply WritableMetricStorage_recordOne_frame in Hone as [H1 H2].
        destruct (IH _ _ Hrest) as [H3 H4]. split; congruence. }
  apply (Sdk_wf_frame s); [done..|lia].
Qed.

Lemma Meter_collect_wf (this : nat) (collector : MetricCollectorHandle)
    (collectionTime : HrTime) (s s' : Sdk)
    (promise : Promise (list (Maybe MetricData))) :
  Sdk_wf s →
  Meter_collect this collector collectionTime s = Some (promise, s') →
  Sdk_wf s'.
Proof.
  intros Hwf Hrun. destruct (meterObjects s !! this) as [m|] eqn:Hm.
  - destruct (Meter_collect_map_spec this m collector collectionTime s Hwf Hm)
      as (calls & s'' & Hmap & _ & Hmeters & Hlen & _).
    rewrite (Meter_collect_unfold _ _ _ _ _ _ Hmap) in Hrun.
    injection Hrun as _ <-. apply (Sdk_wf_frame s); [done..|lia].
  - unfold Meter_collect, Meter_collect_map, mbind, Run_bind, getMeter in Hrun.
    by rewrite Hm in Hrun.
Qed.

(** ** What a collection reads and writes *)

Section collect_once.
Context (this : nat) (m : Meter) (collector : MetricCollectorHandle)
        (collectionTime : HrTime).

Let body : nat → Run CollectCall := λ metricStorage,
  shared ← getShared;
  m' ← getMeter this;
  collectStorage metricStorage
    {| arg_collector := collector;
       arg_collectors := metricCollectors shared;
       arg_resource := resource shared;
       arg_instrumentationLibrary := _instrumentationLibrary m';
       arg_sdkStartTime := sdkStartTime shared;
       arg_collectionTime := collectionTime |}.

Lemma collect_step (r : nat) (st : MetricStorage) (s : Sdk) :
  meterObjects s !! this = Some m →
  storageObjects s !! r = Some st →
  let args := collectArguments (sharedState s) m collector collectionTime in
  body r s =
    Some ({| call_storage := r;
             call_arguments := args;
             call_promise := (MetricStorage_collect args st).1 |},
          {| sharedState := sharedState s;
             meterObjects := meterObjects s;
             storageObjects :=
               <[r := (MetricStorage_collect args st).2]> (storageObjects s) |}).
Proof.
  intros Hm Hst args. unfold body. run_unfold. rewrite Hm. simpl.
  by rewrite (collectStorage_spec _ _ _ _ Hst).
Qed.

Lemma collect_loop_once (refs : list nat) : ∀ s,
  meterObjects s !! this = Some m →
  Forall (λ r, (r < length (storageObjects s))%nat) refs →
  NoDup refs →
  let args := collectArguments (sharedState s) m collector collectionTime in
  ∃ calls s',
    mapM body refs s = Some (calls, s') ∧
    length calls = length refs ∧
    ∀ i r, refs !! i = Some r →
      ∃ st,
        storageObjects s !! r = Some st ∧
        calls !! i =
          Some {| call_storage := r;
                  call_arguments := args;
                  call_promise := (MetricStorage_collect args st).1 |} ∧
        storageObjects s' !! r = Some (MetricStorage_collect args st).2.
Proof.
  induction refs as [|r refs IH]; intros s Hm Hrefs Hnodup args.
  - exists [], s. split_and!; [done..|]. intros i r Hi. done.
  - apply Forall_cons in Hrefs as [Hr Hrefs].
    apply NoDup_cons in Hnodup as [Hnotin Hnodup].
    destruct (lookup_lt_is_Some_2 _ _ Hr) as [st Hst].
    pose proof (collect_step r st s Hm Hst) as Hstep. simpl in Hstep.
    fold args in Hstep.
    set (s1 := {| sharedState := sharedState s;
                  meterObjects := meterObjects s;
                  storageObjects :=
                    <[r := (MetricStorage_collect args st).2]>
                      (storageObjects s) |}) in *.
    assert (Forall (λ r, (r < length (storageObjects s1))%nat) refs) as Hrefs1.
    { simpl. by rewrite length_insert. }
    destruct (IH s1 Hm Hrefs1 Hnodup) as (calls & s' & Hrun & Hlen & Hcalls).
    destruct (collect_loop this m collector collectionTime refs s1 Hm Hrefs1)
      as (calls' & s'' & Hrun' & _ & _ & _ & _ & _ & Hframe & _).
    fold body in Hrun'. rewrite Hrun in Hrun'. injection Hrun' as <- <-.
    eexists (_ :: calls), s'. split_and!.
    + simpl. unfold mbind at 1, Run_bind at 1. rewrite Hstep.
      unfold mbind, Run_bind. rewrite Hrun. done.
    + simpl. by rewrite Hlen.
    + intros [|i] r' Hi; simpl in Hi.
      * injection Hi as <-. exists st. split_and!; [done..|].
        rewrite (Hframe r Hnotin). simpl. by apply list_lookup_insert_eq.
      * destruct (Hcalls i r' Hi) as (st' & Hst' & Hcall & Hafter).
        assert (r' ≠ r) as Hne.
        { intros ->. apply Hnotin. by eapply list_elem_of_lookup_2. }
        simpl in Hst'. rewrite list_lookup_insert_ne in Hst' by done.
        exists st'. by split_and!.
Qed.

Lemma collect_loop_local (refs : list nat) : ∀ s t,
  collectArguments (sharedState s) m collector collectionTime =
    collectArguments (sharedState t) m collector collectionTime →
  meterObjects s !! this = Some m →
  meterObjects t !! this = Some m →
  (∀ r, r ∈ refs →
     ∃ st, storageObjects s !! r = Some st ∧ storageObjects t !! r = Some st) →
  ∃ calls s' t',
    mapM body refs s = Some (calls, s') ∧
    mapM body refs t = Some (calls, t').
Proof.
  induction refs as [|r refs IH]; intros s t Hshared Hs Ht Hagree.
  - by exists [], s, t.
  - destruct (Hagree r) as (st & Hst_s & Hst_t); [by left|].
    pose proof (collect_step r st s Hs Hst_s) as Hstep_s.
    pose proof (collect_step r st t Ht Hst_t) as Hstep_t.
    simpl in Hstep_s, Hstep_t. rewrite <- Hshared in Hstep_t.
    set (args := collectArguments (sharedState s) m collector collectionTime)
      in *.
    match type of Hstep_s with _ = Some (_, ?x) => set (s1 := x) in * end.
    match type of Hstep_t with _ = Some (_, ?x) => set (t1 := x) in * end.
    destruct (IH s1 t1) as (calls & s' & t' & Hrun_s & Hrun_t); [done..| |].
    { intros r' Hr'. destruct (Hagree r') as (st' & Hs' & Ht'); [by right|].
      destruct (decide (r' = r)) as [->|Hne].
      - exists (MetricStorage_collect args st).2. simpl.
        split; apply list_lookup_insert_eq; by eapply lookup_lt_Some.
      - exists st'. simpl. by rewrite !list_lookup_insert_ne. }
    eexists (_ :: calls), s', t'. split.
    + simpl. unfold mbind at 1, Run_bind at 1. rewrite Hstep_s.
      unfold mbind, Run_bind. by rewrite Hrun_s.
    + simpl. unfold mbind at 1, Run_bind at 1. rewrite Hstep_t.
      unfold mbind, Run_bind. by rewrite Hrun_t.
Qed.

End collect_once.

(** The result of [collect] is that of the resource, the start time and the
    collectors of the shared state, of the meter and of the storages the
    meter has registered: two stores that agree on these give the same
    promise. *)
Lemma Meter_collect_local (this : nat) (m : Meter)
    (collector : MetricCollectorHandle) (collectionTime : HrTime)
    (s t : Sdk) :
  collectArguments (sharedState s) m collector collectionTime =
    collectArguments (sharedState t) m collector collectionTime →
  meterObjects s !! this = Some m →
  meterObjects t !! this = Some m →
  (∀ r, r ∈ Map_values (_metricStorageRegistry m) →
     ∃ st, storageObjects s !! r = Some st ∧ storageObjects t !! r = Some st) →
  ∃ promise s' t',
    Meter_collect this collector collectionTime s = Some (promise, s') ∧
    Meter_collect this collector collectionTime t = Some (promise, t').
Proof.
  intros Hshared Hs Ht Hagree.
  destruct (collect_loop_local this m collector collectionTime _ s t
              Hshared Hs Ht Hagree) as (calls & s' & t' & Hrun_s & Hrun_t).
  eexists _, s', t'. split.
  - apply Meter_collect_unfold. unfold Meter_collect_map.
    unfold mbind at 1, Run_bind at 1, getMeter at 1. rewrite Hs. simpl.
    exact Hrun_s.
  - apply Meter_collect_unfold. unfold Meter_collect_map.
    unfold mbind at 1, Run_bind at 1, getMeter at 1. rewrite Ht. simpl.
    exact Hrun_t.
Qed.




(** ** Collection over the interface of the storages *)

Section MetricStorage_interface.
Context (collect_impl : CollectArguments → MetricStorage →
                        Promise (Maybe MetricData) * MetricStorage).


Section collect_of_loop.
Context (this : nat) (m : Meter) (collector : MetricCollectorHandle)
        (collectionTime : HrTime).

Let body : nat → Run CollectCall := λ metricStorage,
  shared ← getShared;
  m' ← getMeter this;
  collectStorage_of collect_impl metricStorage
    {| arg_collector := collector;
       arg_collectors := metricCollectors shared;
       arg_resource := resource shared;
       arg_instrumentationLibrary := _instrumentationLibrary m';
       arg_sdkStartTime := sdkStartTime shared;
       arg_collectionTime := collectionTime |}.

End collect_of_loop.


Section collect_of_once.
Context (this : nat) (m : Meter) (collector : MetricCollectorHandle)
        (collectionTime : HrTime).

Let body : nat → Run CollectCall := λ metricStorage,
  shared ← getShared;
  m' ← getMeter this;
  collectStorage_of collect_impl metricStorage
    {| arg_collector := collector;
       arg_collectors := metricCollectors shared;
       arg_resource := resource shared;
       arg_instrumentationLibrary := _instrumentationLibrary m';
       arg_sdkStartTime := sdkStartTime shared;
       arg_collectionTime := collectionTime |}.



End collect_of_once.


End MetricStorage_interface.


(** ** The constructor *)

(** C10: constructing a Meter appends exactly that Meter to the list of
    meters of the shared state and changes nothing else: the resource, the
    start time of the SDK, the view registry, the list of collectors, every
    meter that was there before and every storage stay as they were. *)
Theorem Meter_new_frame (instrumentationLibrary : InstrumentationLibrary)
    (s : Sdk) :
  ∃ this s',
    Meter_new instrumentationLibrary s = Some (this, s') ∧
    meters (sharedState s') = meters (sharedState s) ++ [this] ∧
    meterObjects s !! this = None ∧
    meterObjects s' !! this =
      Some {| _metricStorageRegistry := [];
              _instrumentationLibrary := instrumentationLibrary |} ∧
    length (meterObjects s') = S (length (meterObjects s)) ∧
    resource (sharedState s') = resource (sharedState s) ∧
    sdkStartTime (sharedState s') = sdkStartTime (sharedState s) ∧
    viewRegistry (sharedState s') = viewRegistry (sharedState s) ∧
    metricCollectors (sharedState s') = metricCollectors (sharedState s) ∧
    (∀ other m, meterObjects s !! other = Some m →
       meterObjects s' !! other = Some m) ∧
    storageObjects s' = storageObjects s.
Proof.
  eexists _, _. split; [reflexivity|]. simpl. split_and!; try done.
  - by apply lookup_ge_None_2.
  - by rewrite lookup_app_r, Nat.sub_diag.
  - rewrite length_app. simpl. lia.
  - intros other m Hm. by apply lookup_app_l_Some.
Qed.

(** ** Collection by a meter *)



Lemma filter_isNotNullish_Just {T} (l : list (Maybe T)) :
  Forall (λ item, ∃ x, item = Just x) (filter (λ item, isNotNullish item) l).
Proof.
  apply Forall_forall. intros item [Hitem _]%list_elem_of_filter.
  destruct item; [by eexists|done..].
Qed.

Lemma filter_isNotNullish_empty {T} (l : list (Maybe T)) :
  Forall (λ item, isNotNullish item = false) l →
  filter (λ item, isNotNullish item) l = [].
Proof.
  induction 1 as [|item l Hitem _ IH]; [done|].
  rewrite filter_cons_False; [exact IH|].
  intros H. rewrite Hitem in H. exact H.
Qed.

(** C6: the list [Meter.collect] returns has no [undefined] or [null]
    entry: it is the list of the results of the storages, in their order,
    less the empty ones; when every storage gives an empty result the list
    is empty, and the call does not fail. *)
Theorem Meter_collect_not_nullish (this : nat) (m : Meter)
    (collector : MetricCollectorHandle) (collectionTime : HrTime) (s : Sdk) :
  Sdk_wf s →
  meterObjects s !! this = Some m →
  ∃ calls s' promise,
    Meter_collect_map this collector collectionTime s = Some (calls, s') ∧
    Meter_collect this collector collectionTime s = Some (promise, s') ∧
    (∀ result, promise = Resolved result →
       Forall (λ item, ∃ data, item = Just data) result ∧
       ∃ results,
         call_promise <$> calls = Resolved <$> results ∧
         result = filter (λ item, isNotNullish item) results) ∧
    (Forall (λ call, call_promise call = Resolved Undefined ∨
                     call_promise call = Resolved Null) calls →
     promise = Resolved []).
Proof.
  intros Hwf Hm.
  destruct (Meter_collect_map_spec this m collector collectionTime s Hwf Hm)
    as (calls & s' & Hrun & _).
  exists calls, s', (Promise_then (filter (λ item, isNotNullish item))
                       (Promise_all (call_promise <$> calls))).
  split_and!; [done|by apply Meter_collect_unfold|..].
  - intros result Hresult.
    destruct (Promise_all (call_promise <$> calls)) as [results|e] eqn:Hall;
      [|done].
    injection Hresult as <-. split; [apply filter_isNotNullish_Just|].
    exists results. split; [by apply Promise_all_Resolved|done].
  - intros Hempty.
    assert (∃ results, call_promise <$> calls = Resolved <$> results ∧
              Forall (λ item, isNotNullish item = false) results)
      as (results & Hresults & Hnull).
    { clear Hrun. induction Hempty as [|call calls Hcall _ (results & IH1 & IH2)].
      - by exists [].
      - destruct Hcall as [Hcall|Hcall].
        + exists (Undefined :: results). rewrite !fmap_cons, Hcall, IH1.
          by split; [|constructor].
        + exists (Null :: results). rewrite !fmap_cons, Hcall, IH1.
          by split; [|constructor]. }
    apply Promise_all_Resolved in Hresults. rewrite Hresults. simpl.
    by rewrite filter_isNotNullish_empty.
Qed.

Lemma Meter_collect_not_nullish_witness :
  ∃ s' promise,
    Meter_collect 0 cumulativeCollector exampleTime twoCounters =
      Some (promise, s') ∧
    ∀ result, promise = Resolved result →
      Forall (λ item, ∃ data, item = Just data) result.
Proof.
  assert (Sdk_wf twoCounters) as Hwf.
  { vm_compute. repeat constructor. }
  assert (meterObjects twoCounters !! 0%nat =
            Some {| _metricStorageRegistry := [("A", 0%nat); ("B", 1%nat)];
                    _instrumentationLibrary := exampleLibrary |}) as Hm.
  { reflexivity. }
  destruct (Meter_collect_not_nullish 0 _ cumulativeCollector exampleTime
              twoCounters Hwf Hm) as (calls & s' & promise & _ & Hrun & H & _).
  exists s', promise. split; [exact Hrun|].
  intros result Hresult. by destruct (H result Hresult).
Defined.

Lemma Promise_all_settles {T} (ps : list (Promise T)) :
  (∀ p, p ∈ ps → ∃ v, p = Resolved v) →
  ∃ results, ps = Resolved <$> results.
Proof.
  induction ps as [|p ps IH]; intros H; [by exists []|].
  destruct (H p) as [v ->]; [by left|].
  destruct IH as [results ->]; [intros p' Hp'; apply H; by right|].
  by exists (v :: results).
Qed.

Lemma Promise_all_Rejected_elem {T} (ps : list (Promise T)) (e : JsError) :
  Promise_all ps = Rejected e → Rejected e ∈ ps.
Proof.
  induction ps as [|[v|e'] ps IH]; simpl; [done| |].
  - destruct (Promise_all ps) as [l|e'']; simpl; [done|].
    intros [= ->]. right. by apply IH.
  - intros [= ->]. by left.
Qed.

(** C1, as the code has it: [Meter.collect] awaits [Promise.all] of the
    promises of the storages.  The [collect] of every registered storage is
    invoked; if one of them fails, the call as a whole fails, with the
    reason of a storage that failed, and returns no list, so the data of
    the other storages is not returned; only when none fails does the call
    return the data of the storages. *)
Theorem Meter_collect_rejects_as_a_whole (this : nat) (m : Meter)
    (collector : MetricCollectorHandle) (collectionTime : HrTime) (s : Sdk) :
  Sdk_wf s →
  meterObjects s !! this = Some m →
  let args := collectArguments (sharedState s) m collector collectionTime in
  ∃ calls s' promise,
    Meter_collect_map this collector collectionTime s = Some (calls, s') ∧
    Meter_collect this collector collectionTime s = Some (promise, s') ∧
    call_storage <$> calls = Map_values (_metricStorageRegistry m) ∧
    (∀ r, r ∈ Map_values (_metricStorageRegistry m) →
       ∃ st call,
         storageObjects s !! r = Some st ∧
         call ∈ calls ∧
         call_storage call = r ∧
         call_promise call = (MetricStorage_collect args st).1) ∧
    ((∃ call reason, call ∈ calls ∧ call_promise call = Rejected reason) →
     ∃ call reason,
       call ∈ calls ∧
       call_promise call = Rejected reason ∧
       promise = Rejected reason) ∧
    (∀ r st reason,
       r ∈ Map_values (_metricStorageRegistry m) →
       storageObjects s !! r = Some st →
       (MetricStorage_collect args st).1 = Rejected reason →
       ∃ call reason',
         call ∈ calls ∧
         call_promise call = Rejected reason' ∧
         promise = Rejected reason') ∧
    ((∀ call, call ∈ calls → ∃ value, call_promise call = Resolved value) →
     ∃ results,
       call_promise <$> calls = Resolved <$> results ∧
       promise = Resolved (filter (λ item, isNotNullish item) results)).
Proof.
  intros Hwf Hm args.
  destruct (Meter_collect_map_spec this m collector collectionTime s Hwf Hm)
    as (calls & s' & Hrun & _ & _ & _ & Hrefs & _ & _ & Hfirst).
  exists calls, s', (Promise_then (filter (λ item, isNotNullish item))
                       (Promise_all (call_promise <$> calls))).
  assert ((∃ call reason, call ∈ calls ∧ call_promise call = Rejected reason) →
          ∃ call reason,
            call ∈ calls ∧
            call_promise call = Rejected reason ∧
            Promise_then (filter (λ item, isNotNullish item))
              (Promise_all (call_promise <$> calls)) = Rejected reason)
    as Hfails.
  { intros (call & reason & Hcall & Hreason).
    destruct (Promise_all_Rejected (call_promise <$> calls)) as [e He].
    { exists reason. rewrite <- Hreason. by apply list_elem_of_fmap_2. }
    pose proof (Promise_all_Rejected_elem _ _ He) as Hin.
    apply list_elem_of_fmap in Hin as (call' & Hreason' & Hcall').
    exists call', e. split_and!; [done..|]. by rewrite He. }
  split_and!; [done|by apply Meter_collect_unfold|done| |done|..].
  - intros r Hr.
    apply list_elem_of_split_l in Hr as (l1 & l2 & Hsplit & Hl1).
    destruct (Hfirst l1 r l2 Hsplit Hl1) as (st & call & Hst & Hcall & Hr & Hp).
    exists st, call. split_and!; try done. by eapply list_elem_of_lookup_2.
  - intros r st reason Hr Hst Hrejects. apply Hfails.
    apply list_elem_of_split_l in Hr as (l1 & l2 & Hsplit & Hl1).
    destruct (Hfirst l1 r l2 Hsplit Hl1)
      as (st' & call & Hst' & Hcall & _ & Hp).
    rewrite Hst in Hst'. injection Hst' as <-.
    exists call, reason. split; [by eapply list_elem_of_lookup_2|].
    by rewrite Hp.
  - intros Hall.
    destruct (Promise_all_settles (call_promise <$> calls)) as [results Hresults].
    + intros p (call & -> & Hcall)%list_elem_of_fmap. by apply Hall.
    + exists results. split; [done|].
      apply Promise_all_Resolved in Hresults. by rewrite Hresults.
Qed.

Lemma Meter_collect_rejects_as_a_whole_witness :
  ∃ s',
    Meter_collect 0 cumulativeCollector exampleTime oneFailingStorage =
      Some (Rejected "callback failed", s').
Proof.
  assert (Sdk_wf oneFailingStorage) as Hwf.
  { vm_compute. repeat constructor. }
  assert (meterObjects oneFailingStorage !! 0%nat =
            Some {| _metricStorageRegistry := [("A", 0%nat); ("B", 1%nat)];
                    _instrumentationLibrary := exampleLibrary |}) as Hm.
  { reflexivity. }
  destruct (Meter_collect_rejects_as_a_whole 0 _ cumulativeCollector
              exampleTime oneFailingStorage Hwf Hm)
    as (calls & s' & promise & Hmap & Hrun & _ & _ & _ & Hfail & _).
  destruct (Hfail 0%nat
              (Async (AsyncMetricStorage_create DEFAULT_VIEW
                        (createInstrumentDescriptor "A" OBSERVABLE_GAUGE
                           exampleOptions) failingCallback))
              "callback failed")
    as (call & reason & Hcall & Hreason & ->).
  - by left.
  - reflexivity.
  - reflexivity.
  - vm_compute in Hmap. injection Hmap as <- _.
    exists s'. rewrite Hrun.
    rewrite !elem_of_cons in Hcall.
    destruct Hcall as [->|[->|Hnil]]; [| |by apply elem_of_nil in Hnil].
    + simpl in Hreason. by injection Hreason as <-.
    + discriminate Hreason.
Defined.

(** C1 fails: the callback of the observable gauge "A" throws, the counter
    "B" produces its data, and the call returns no data at all: it fails
    with the reason of "A". *)
Lemma Meter_collect_failure_aborts :
  ∃ callA callB data s',
    Meter_collect_map 0 cumulativeCollector exampleTime oneFailingStorage =
      Some ([callA; callB], s') ∧
    call_promise callA = Rejected "callback failed" ∧
    call_promise callB = Resolved (Just data) ∧
    metric_points data =
      [pointOf (1592602232, 694000000) exampleTime ∅ (SumAccumulation 1)] ∧
    Meter_collect 0 cumulativeCollector exampleTime oneFailingStorage =
      Some (Rejected "callback failed", s') ∧
    ¬ ∃ result,
        Meter_collect 0 cumulativeCollector exampleTime oneFailingStorage =
          Some (Resolved result, s') ∧
        Just data ∈ result.
Proof.
  eexists _, _, _, _. split_and!.
  - vm_compute. reflexivity.
  - reflexivity.
  - reflexivity.
  - reflexivity.
  - vm_compute. reflexivity.
  - intros (result & H & _). vm_compute in H. discriminate H.
Qed.

(** ** Creation of instruments *)

(** C8: creating a synchronous instrument asks the view registry of the
    shared state for the views of the descriptor of the instrument and of
    the instrumentation library of the meter, creates one
    [SyncMetricStorage] per view it returns, in their order, and hands the
    instrument that one storage when there is one view, and a
    [MultiMetricStorage] over all of them when there are several. *)
Theorem Meter_create_one_storage_per_view (this : nat) (m : Meter)
    (name : string) (options : MetricOptions) (s : Sdk)
    (create : nat → string → MetricOptions → Run SyncInstrument)
    (type : InstrumentType) :
  meterObjects s !! this = Some m →
  (create, type) ∈ [(Meter_createCounter, COUNTER);
                    (Meter_createUpDownCounter, UP_DOWN_COUNTER);
                    (Meter_createHistogram, HISTOGRAM)] →
  let descriptor := createInstrumentDescriptor name type options in
  let views :=
    findViews (viewRegistry (sharedState s)) descriptor
      (_instrumentationLibrary m) in
  ∃ instrument s',
    create this name options s = Some (instrument, s') ∧
    _descriptor instrument = descriptor ∧
    storageObjects s' =
      storageObjects s ++
        ((λ view, Sync (SyncMetricStorage_create view descriptor)) <$> views) ∧
    (∀ view, views = [view] →
       _writableMetricStorage instrument =
         SingleStorage (length (storageObjects s))) ∧
    ((1 < length views)%nat →
       _writableMetricStorage instrument =
         MultiMetricStorage (seq (length (storageObjects s)) (length views))).
Proof.
  intros Hm Hcreate descriptor views.
  eexists _, _. split; [by apply Meter_create_spec|]. simpl.
  fold descriptor views. split_and!; try done.
  - intros view Hview. by rewrite Hview.
  - intros Hn. by apply handleOf_multi.
Qed.

Lemma Meter_create_one_storage_per_view_witness :
  ∃ instrument s',
    Meter_createCounter 0 "requests" exampleOptions
      (oneMeter (ViewRegistry_of [renamingView "a"; renamingView "b"])) =
      Some (instrument, s') ∧
    _writableMetricStorage instrument = MultiMetricStorage [0; 1]%nat ∧
    length (storageObjects s') = 2%nat.
Proof.
  destruct (Meter_create_one_storage_per_view 0
              {| _metricStorageRegistry := [];
                 _instrumentationLibrary := exampleLibrary |}
              "requests" exampleOptions
              (oneMeter (ViewRegistry_of [renamingView "a"; renamingView "b"]))
              Meter_createCounter COUNTER)
    as (instrument & s' & Hrun & _ & Hstorages & _ & Hmulti).
  - reflexivity.
  - by left.
  - exists instrument, s'. split_and!.
    + exact Hrun.
    + apply Hmulti. vm_compute. lia.
    + by rewrite Hstorages.
Defined.

(** ** Several views for one instrument *)



(** ** Two registrations under one name *)

(** C5: of two registrations under the same name with one meter the second
    wins.  Neither raises an error; afterwards the registry maps the name to
    the storage the second registration created (for its last view), and no
    storage of the first registration is in the registry or is collected. *)
Theorem Meter_second_registration_wins (this : nat) (m : Meter)
    (first second : Registration) (s : Sdk) :
  Sdk_wf s →
  meterObjects s !! this = Some m →
  descriptor_name (Registration_descriptor first) =
    descriptor_name (Registration_descriptor second) →
  findViews (viewRegistry (sharedState s)) (Registration_descriptor second)
    (_instrumentationLibrary m) ≠ [] →
  ∃ s1 s2 m2 storage,
    register this first s = Some ((), s1) ∧
    register this second s1 = Some ((), s2) ∧
    storageObjects s1 =
      storageObjects s ++
        (Registration_storage first <$>
           findViews (viewRegistry (sharedState s))
             (Registration_descriptor first) (_instrumentationLibrary m)) ∧
    storageObjects s2 =
      storageObjects s1 ++
        (Registration_storage second <$>
           findViews (viewRegistry (sharedState s))
             (Registration_descriptor second) (_instrumentationLibrary m)) ∧
    meterObjects s2 !! this = Some m2 ∧
    Map_get (descriptor_name (Registration_descriptor second))
      (_metricStorageRegistry m2) = Some storage ∧
    (length (storageObjects s1) ≤ storage < length (storageObjects s2))%nat ∧
    S storage = length (storageObjects s2) ∧
    ∀ r, (length (storageObjects s) ≤ r < length (storageObjects s1))%nat →
      (r ∉ Map_values (_metricStorageRegistry m2)) ∧
      ∀ collector collectionTime,
        ∃ calls s3,
          Meter_collect_map this collector collectionTime s2 =
            Some (calls, s3) ∧
          r ∉ call_storage <$> calls.
Proof.
  intros Hwf Hm Hname Hviews.
  set (name := descriptor_name (Registration_descriptor second)) in *.
  set (views1 := findViews (viewRegistry (sharedState s))
                   (Registration_descriptor first) (_instrumentationLibrary m)).
  set (views2 := findViews (viewRegistry (sharedState s))
                   (Registration_descriptor second) (_instrumentationLibrary m))
    in *.
  set (s1 := registered this m name (Registration_storage first <$> views1) s).
  set (m1 := {| _metricStorageRegistry :=
                  registryAfter name (length (storageObjects s))
                    (length (Registration_storage first <$> views1))
                    (_metricStorageRegistry m);
                _instrumentationLibrary := _instrumentationLibrary m |}).
  assert (meterObjects s1 !! this = Some m1) as Hm1
    by (by apply registered_meter).
  assert (Sdk_wf s1) as Hwf1 by (by apply registered_wf).
  set (s2 := registered this m1 name (Registration_storage second <$> views2) s1).
  set (storage := (length (storageObjects s1) + length views2 - 1)%nat).
  assert (length views2 ≠ 0%nat) as Hn2 by (by destruct views2).
  set (m2 := {| _metricStorageRegistry :=
                  Map_set name storage (_metricStorageRegistry m);
                _instrumentationLibrary := _instrumentationLibrary m |}).
  assert (meterObjects s2 !! this = Some m2) as Hm2.
  { unfold s2. rewrite (registered_meter _ _ _ _ _ Hm1). f_equal.
    unfold m2, m1, storage. simpl. rewrite !length_fmap.
    destruct (length views2) as [|n2]; [done|]. simpl.
    destruct (length views1) as [|n1]; simpl.
    - do 2 f_equal. lia.
    - rewrite Map_set_set. do 2 f_equal. lia. }
  assert (Sdk_wf s2) as Hwf2 by (by apply registered_wf).
  assert (length (storageObjects s2) = S storage) as Hlen2.
  { unfold s2, storage. simpl. rewrite !length_app, !length_fmap. lia. }
  assert (∀ r, (length (storageObjects s) ≤ r < length (storageObjects s1))%nat →
               r ∉ Map_values (_metricStorageRegistry m2)) as Hgone.
  { intros r [Hr1 Hr2] [->|Hr]%Map_values_set.
    - unfold storage in Hr2. lia.
    - pose proof (Sdk_wf_lookup _ _ _ Hwf Hm) as Hold.
      rewrite Forall_forall in Hold. specialize (Hold _ Hr). lia. }
  exists s1, s2, m2, storage. split_and!.
  - rewrite (register_spec this m first s Hm). by rewrite Hname.
  - by rewrite (register_spec this m1 second s1 Hm1).
  - done.
  - done.
  - exact Hm2.
  - apply Map_get_set.
  - unfold storage. lia.
  - rewrite Hlen2. lia.
  - by rewrite Hlen2.
  - intros r Hr. split; [by apply Hgone|].
    intros collector collectionTime.
    destruct (Meter_collect_map_spec this m2 collector collectionTime s2
                Hwf2 Hm2) as (calls & s3 & Hrun & _ & _ & _ & Hrefs & _).
    exists calls, s3. split; [exact Hrun|]. rewrite Hrefs. by apply Hgone.
Qed.

Lemma Meter_second_registration_wins_witness :
  ∃ s1 s2 m2,
    register 0
      (SyncRegistration
         (createInstrumentDescriptor "requests" COUNTER exampleOptions))
      (oneMeter (ViewRegistry_of [])) = Some ((), s1) ∧
    register 0
      (AsyncRegistration
         (createInstrumentDescriptor "requests" OBSERVABLE_GAUGE exampleOptions)
         failingCallback) s1 = Some ((), s2) ∧
    meterObjects s2 !! 0%nat = Some m2 ∧
    Map_get "requests" (_metricStorageRegistry m2) = Some 1%nat ∧
    0%nat ∉ Map_values (_metricStorageRegistry m2).
Proof.
  destruct (Meter_second_registration_wins 0
              {| _metricStorageRegistry := [];
                 _instrumentationLibrary := exampleLibrary |}
              (SyncRegistration
                 (createInstrumentDescriptor "requests" COUNTER exampleOptions))
              (AsyncRegistration
                 (createInstrumentDescriptor "requests" OBSERVABLE_GAUGE
                    exampleOptions) failingCallback)
              (oneMeter (ViewRegistry_of [])))
    as (s1 & s2 & m2 & storage & Hreg1 & Hreg2 & Hs1 & Hs2 & Hm2 & Hget & _
        & Hstorage & Hgone).
  - vm_compute. repeat constructor.
  - reflexivity.
  - reflexivity.
  - vm_compute. discriminate.
  - exists s1, s2, m2. split_and!; try done.
    + simpl in Hget. rewrite Hget. f_equal. rewrite Hs2, Hs1 in Hstorage.
      vm_compute in Hstorage. by injection Hstorage.
    + apply Hgone. rewrite Hs1. vm_compute. lia.
Defined.

(** ** No registered view matches *)


Lemma ViewRegistry_of_not_empty (registered : list RegisteredView)
    (d : InstrumentDescriptor) (lib : InstrumentationLibrary) :
  findViews (ViewRegistry_of registered) d lib ≠ [].
Proof. simpl. by destruct (matchingViews registered d lib). Qed.

Lemma write_spec (write : Z → Attributes → SyncInstrument → Run WriteOutcome)
    (type : InstrumentType) (value : Z) (attributes : Attributes)
    (instrument : SyncInstrument) (s s' : Sdk) :
  (write, type) ∈ [(Counter_add, COUNTER);
                   (UpDownCounter_add, UP_DOWN_COUNTER);
                   (Histogram_record, HISTOGRAM)] →
  (type = COUNTER → (0 ≤ value)%Z) →
  WritableMetricStorage_record value attributes
    (_writableMetricStorage instrument) s = Some ((), s') →
  write value attributes instrument s = Some (Written, s').
Proof.
  intros Hwrite Hvalue Hrecord. rewrite !elem_of_cons in Hwrite.
  destruct Hwrite as [[= -> ->]|[[= -> ->]|[[= -> ->]|Hnil]]];
    [| | |by apply elem_of_nil in Hnil].
  - unfold Counter_add. rewrite decide_False by (specialize (Hvalue eq_refl); lia).
    unfold mbind, Run_bind. by rewrite Hrecord.
  - unfold UpDownCounter_add, mbind, Run_bind. by rewrite Hrecord.
  - unfold Histogram_record, mbind, Run_bind. by rewrite Hrecord.
Qed.







(** ** No fan-out at collection *)




(** ** Histogram buckets *)

Lemma collect_histogram_10_11 (view : View) (d : InstrumentDescriptor)
    (attributes : Attributes) (args : CollectArguments)
    (boundaries : list Boundary) (buckets : list Z) :
  descriptor_type d = HISTOGRAM →
  view_boundaries view = Some boundaries →
  (boundaries, buckets) ∈ [([Finite 0; Finite 100], [0; 2; 0]);
                           (ensureHistogramIsCorrect_explicitBounds,
                            ensureHistogramIsCorrect_bucketCounts)] →
  (MetricStorage_collect args
     (Sync (SyncMetricStorage_record 11 attributes
              (SyncMetricStorage_record 10 attributes
                 (SyncMetricStorage_create view d))))).1 =
    Resolved (Just
      {| metric_descriptor := viewDescriptor view d;
         metric_resource := arg_resource args;
         metric_instrumentationLibrary := arg_instrumentationLibrary args;
         metric_temporality := aggregationTemporality (arg_collector args);
         metric_points :=
           [pointOf (arg_sdkStartTime args) (arg_collectionTime args)
              (viewAttributes view attributes)
              (HistogramAccumulation 21 2 buckets)] |}).
Proof.
  intros Htype Hview Hbuckets. simpl.
  unfold viewAggregator. rewrite Htype, Hview. simpl.
  rewrite decide_True by done.
  unfold collectBuckets, buildPoints. simpl. rewrite lookup_empty.
  rewrite !elem_of_cons in Hbuckets.
  destruct Hbuckets as [[= -> ->]|[[= -> ->]|Hnil]];
    [| |by apply elem_of_nil in Hnil];
    by destruct (aggregationTemporality (arg_collector args)).
Qed.

(** C9, as the model has it: a histogram has one bucket more than it has
    boundaries.  With the boundaries [[0, 100]], recording 10 and 11 under
    one attribute set gives at the next collection a single point with
    [bucketCounts = [0, 2, 0]], [sum = 21] and [count = 2]; the counts
    [[2, 0]] are those of the single boundary [[Infinity]], the defaults of
    [ensureHistogramIsCorrect]. *)
Theorem Histogram_bucketCounts (this : nat) (m : Meter) (name : string)
    (options : MetricOptions) (s : Sdk) (view : View)
    (boundaries : list Boundary) (buckets : list Z) (attributes : Attributes) :
  Sdk_wf s →
  meterObjects s !! this = Some m →
  findViews (viewRegistry (sharedState s))
    (createInstrumentDescriptor name HISTOGRAM options)
    (_instrumentationLibrary m) = [view] →
  view_boundaries view = Some boundaries →
  (boundaries, buckets) ∈ [([Finite 0; Finite 100], [0; 2; 0]);
                           (ensureHistogramIsCorrect_explicitBounds,
                            ensureHistogramIsCorrect_bucketCounts)] →
  ∃ histogram s1 s2 s3,
    Meter_createHistogram this name options s = Some (histogram, s1) ∧
    Histogram_record 10 attributes histogram s1 = Some (Written, s2) ∧
    Histogram_record 11 attributes histogram s2 = Some (Written, s3) ∧
    ∀ collector collectionTime,
      ∃ calls s4 promise call data,
        Meter_collect_map this collector collectionTime s3 = Some (calls, s4) ∧
        Meter_collect this collector collectionTime s3 = Some (promise, s4) ∧
        call ∈ calls ∧
        call_storage call = length (storageObjects s) ∧
        call_promise call = Resolved (Just data) ∧
        metric_points data =
          [pointOf (sdkStartTime (sharedState s)) collectionTime
             (viewAttributes view attributes)
             (HistogramAccumulation 21 2 buckets)] ∧
        ∀ result, promise = Resolved result → Just data ∈ result.
Proof.
  intros Hwf Hm Hviews Hview Hbuckets.
  set (descriptor := createInstrumentDescriptor name HISTOGRAM options) in *.
  set (storage := length (storageObjects s)).
  pose proof (Meter_create_spec this m name options s Meter_createHistogram
                HISTOGRAM Hm) as Hrun.
  simpl in Hrun. fold descriptor in Hrun. rewrite Hviews in Hrun.
  simpl in Hrun. fold storage in Hrun.
  set (st := SyncMetricStorage_create view descriptor) in *.
  pose proof (registered_record this m name 10 attributes [st] s) as Hrec1.
  pose proof (registered_record this m name 11 attributes
                [SyncMetricStorage_record 10 attributes st] s) as Hrec2.
  set (s3 := registered this m name
               [Sync (SyncMetricStorage_record 11 attributes
                        (SyncMetricStorage_record 10 attributes st))] s).
  assert (meterObjects s3 !! this =
            Some {| _metricStorageRegistry :=
                      Map_set name storage (_metricStorageRegistry m);
                    _instrumentationLibrary := _instrumentationLibrary m |})
    as Hm3.
  { unfold s3. rewrite (registered_meter _ _ _ _ _ Hm). simpl.
    by rewrite Nat.add_0_r. }
  assert (Sdk_wf s3) as Hwf3 by (by apply registered_wf).
  eexists _, _, _, s3. split_and!.
  - apply Hrun. do 2 right. by left.
  - apply (write_spec Histogram_record HISTOGRAM); [do 2 right; by left|done|].
    exact Hrec1.
  - apply (write_spec Histogram_record HISTOGRAM); [do 2 right; by left|done|].
    exact Hrec2.
  - intros collector collectionTime.
    destruct (Meter_collect_registered this _ collector collectionTime s3
                storage
                (Sync (SyncMetricStorage_record 11 attributes
                         (SyncMetricStorage_record 10 attributes st)))
                Hwf3 Hm3) as (calls & s4 & call & Hmap & _ & Hin & Hst & Hp).
    { apply Map_values_set_elem. }
    { simpl. by rewrite lookup_app_r, Nat.sub_diag. }
    unfold st in Hp.
    rewrite (collect_histogram_10_11 view descriptor attributes _ boundaries
               buckets eq_refl Hview Hbuckets) in Hp.
    eexists calls, s4, _, call, _. split_and!.
    + exact Hmap.
    + by apply Meter_collect_unfold.
    + exact Hin.
    + exact Hst.
    + exact Hp.
    + reflexivity.
    + intros result Hresult. by eapply Meter_collect_result_contains.
Qed.

Lemma Histogram_bucketCounts_witness :
  ∃ histogram s1 s2 s3 s4 data,
    Meter_createHistogram 0 "int-histogram" exampleOptions
      (oneMeter (ViewRegistry_of [boundariesView [Finite 0; Finite 100]])) =
      Some (histogram, s1) ∧
    Histogram_record 10 ∅ histogram s1 = Some (Written, s2) ∧
    Histogram_record 11 ∅ histogram s2 = Some (Written, s3) ∧
    Meter_collect 0 cumulativeCollector exampleTime s3 =
      Some (Resolved [Just data], s4) ∧
    metric_points data =
      [pointOf (1592602232, 694000000) exampleTime ∅
         (HistogramAccumulation 21 2 [0; 2; 0])].
Proof.
  destruct (Histogram_bucketCounts 0
              {| _metricStorageRegistry := [];
                 _instrumentationLibrary := exampleLibrary |}
              "int-histogram" exampleOptions
              (oneMeter (ViewRegistry_of [boundariesView [Finite 0; Finite 100]]))
              (registered_view (boundariesView [Finite 0; Finite 100]))
              [Finite 0; Finite 100] [0; 2; 0] ∅)
    as (histogram & s1 & s2 & s3 & Hcreate & Hrec1 & Hrec2 & Hcollect).
  - vm_compute. repeat constructor.
  - reflexivity.
  - reflexivity.
  - reflexivity.
  - by left.
  - destruct (Hcollect cumulativeCollector exampleTime)
      as (calls & s4 & promise & call & data & _ & Hrun & _).
    vm_compute in Hcreate. injection Hcreate as <- <-.
    vm_compute in Hrec1. injection Hrec1 as <-.
    vm_compute in Hrec2. injection Hrec2 as <-.
    vm_compute in Hrun. injection Hrun as <- <-.
    eexists _, _, _, _, _, _. split_and!; reflexivity.
Defined.

(** C9 fails: with the boundaries [[0, 100]] the point has three buckets,
    [[0, 2, 0]], not [[2, 0]]. *)
Lemma Histogram_bucketCounts_not_2_0 :
  ∃ histogram s1 s2 s3 s4 data point,
    Meter_createHistogram 0 "int-histogram" exampleOptions
      (oneMeter (ViewRegistry_of [boundariesView [Finite 0; Finite 100]])) =
      Some (histogram, s1) ∧
    Histogram_record 10 ∅ histogram s1 = Some (Written, s2) ∧
    Histogram_record 11 ∅ histogram s2 = Some (Written, s3) ∧
    Meter_collect 0 cumulativeCollector exampleTime s3 =
      Some (Resolved [Just data], s4) ∧
    metric_points data = [point] ∧
    point_value point = HistogramAccumulation 21 2 [0; 2; 0] ∧
    point_value point ≠ HistogramAccumulation 21 2 [2; 0].
Proof.
  eexists _, _, _, _, _, _, _. split_and!; try reflexivity. discriminate.
Qed.

(** * More of the code *)

(** ** The default URL of the exporter *)

Lemma length_pos_not_empty (s : string) :
  (0 <? String.length s)%nat = true ↔ s ≠ "".
Proof.
  destruct s; simpl; [split; [done|congruence]|].
  split; [done|]. intros _. by apply Nat.ltb_lt, Nat.lt_0_succ.
Qed.

(** X1: [getDefaultUrl] returns a configured [url] as it is, the empty
    string included, whatever the environment holds.  Without one it
    returns the metrics endpoint of the environment as it is when that is
    not empty, else the general endpoint with the resource path appended
    when that is not empty, else the default URL; so unless the appending
    function returns the empty string for an endpoint that is not empty,
    the URL it takes from the environment is never empty. *)
Theorem getDefaultUrl_resolution (getEnv : ENVIRONMENT)
    (appendResourcePathToUrlIfNotPresent : string → string → string)
    (config : OTLPExporterConfigBase) :
  let result :=
    getDefaultUrl getEnv appendResourcePathToUrlIfNotPresent config in
  let metricsEndpoint := OTEL_EXPORTER_OTLP_METRICS_ENDPOINT getEnv in
  let endpoint := OTEL_EXPORTER_OTLP_ENDPOINT getEnv in
  (∀ url, config_url config = Some url → result = url) ∧
  (config_url config = None →
     (metricsEndpoint ≠ "" → result = metricsEndpoint) ∧
     (metricsEndpoint = "" → endpoint ≠ "" →
        result = appendResourcePathToUrlIfNotPresent endpoint "/v1/metrics") ∧
     (metricsEndpoint = "" → endpoint = "" →
        result = "http://localhost:4318/v1/metrics") ∧
     ((∀ url, url ≠ "" →
         appendResourcePathToUrlIfNotPresent url "/v1/metrics" ≠ "") →
      result ≠ "")).
Proof.
  intros result metricsEndpoint endpoint. unfold result, getDefaultUrl.
  fold metricsEndpoint endpoint. split.
  - by intros url ->.
  - intros ->.
    destruct (0 <? String.length metricsEndpoint)%nat eqn:Hmetrics.
    + apply length_pos_not_empty in Hmetrics. by split_and!.
    + assert (metricsEndpoint = "") as Hempty.
      { destruct (decide (metricsEndpoint = "")) as [|Hne]; [done|].
        apply length_pos_not_empty in Hne. congruence. }
      destruct (0 <? String.length endpoint)%nat eqn:Hendpoint.
      * apply length_pos_not_empty in Hendpoint. split_and!; try done.
        intros Happend. by apply Happend.
      * assert (endpoint = "") as Hempty'.
        { destruct (decide (endpoint = "")) as [|Hne]; [done|].
          apply length_pos_not_empty in Hne. congruence. }
        by split_and!.
Qed.

Lemma getDefaultUrl_resolution_witness :
  getDefaultUrl
    {| OTEL_EXPORTER_OTLP_METRICS_ENDPOINT := "";
       OTEL_EXPORTER_OTLP_ENDPOINT := "http://collector:4318";
       OTEL_EXPORTER_OTLP_METRICS_HEADERS := "" |}
    String.append {| config_url := None |} =
    "http://collector:4318/v1/metrics" ∧
  getDefaultUrl
    {| OTEL_EXPORTER_OTLP_METRICS_ENDPOINT := "http://metrics:4318/m";
       OTEL_EXPORTER_OTLP_ENDPOINT := "http://collector:4318";
       OTEL_EXPORTER_OTLP_METRICS_HEADERS := "" |}
    String.append {| config_url := Some "" |} = "".
Proof.
  split.
  - destruct (getDefaultUrl_resolution
                {| OTEL_EXPORTER_OTLP_METRICS_ENDPOINT := "";
                   OTEL_EXPORTER_OTLP_ENDPOINT := "http://collector:4318";
                   OTEL_EXPORTER_OTLP_METRICS_HEADERS := "" |}
                String.append {| config_url := None |}) as [_ H].
    destruct (H eq_refl) as (_ & Happend & _). by apply Happend.
  - destruct (getDefaultUrl_resolution
                {| OTEL_EXPORTER_OTLP_METRICS_ENDPOINT := "http://metrics:4318/m";
                   OTEL_EXPORTER_OTLP_ENDPOINT := "http://collector:4318";
                   OTEL_EXPORTER_OTLP_METRICS_HEADERS := "" |}
                String.append {| config_url := Some "" |}) as [H _].
    by apply H.
Defined.

(** ** The helpers of the exporter tests *)

Lemma Map_get_Some_elem {V} (k : string) (v : V) (m : list (string * V)) :
  Map_get k m = Some v → (k, v) ∈ m.
Proof.
  induction m as [|[k' v'] m IH]; simpl; [done|].
  destruct (decide (k' = k)) as [->|].
  - intros [= ->]. by left.
  - intros H. right. by apply IH.
Qed.

Lemma Map_get_elem_NoDup {V} (k : string) (v : V) (m : list (string * V)) :
  NoDup m.*1 → (k, v) ∈ m → Map_get k m = Some v.
Proof.
  induction m as [|[k' v'] m IH]; simpl; intros Hnodup Hin.
  - by apply elem_of_nil in Hin.
  - apply NoDup_cons in Hnodup as [Hk' Hnodup].
    apply elem_of_cons in Hin as [[= <- <-]|Hin].
    + by rewrite decide_True.
    + rewrite decide_False; [by apply IH|].
      intros ->. apply Hk'. apply list_elem_of_fmap. by exists (k, v).
Qed.

Lemma ensureHeadersContain_Returned (actual expected : JsObject) :
  ensureHeadersContain actual expected = Returned →
  (∀ k v, (k, v) ∈ expected → Map_get k actual = Some v) ∧
  (expected ≠ [] → Map_get "toString" actual = None).
Proof.
  unfold ensureHeadersContain, objectToString.
  induction expected as [|[k v] expected IH]; simpl; intros Hrun.
  - split; [|done]. intros k v Hin. by apply elem_of_nil in Hin.
  - destruct (Map_get "toString" actual) as [shown|] eqn:Hshown; [done|].
    unfold assert_strictEqual in Hrun.
    destruct (decide (Some v = Map_get k actual)) as [Heq|]; [|done].
    simpl in Hrun. destruct (IH Hrun) as [Hrest _]. split; [|done].
    intros k' v' [[= -> ->]|Hin]%elem_of_cons; [done|by apply Hrest].
Qed.

Lemma ensureHeadersContain_contained (actual expected : JsObject) :
  Map_get "toString" actual = None →
  (∀ k v, (k, v) ∈ expected → Map_get k actual = Some v) →
  ensureHeadersContain actual expected = Returned.
Proof.
  unfold ensureHeadersContain, objectToString. intros ->.
  induction expected as [|[k v] expected IH]; simpl; intros Hall; [done|].
  unfold assert_strictEqual. rewrite decide_True.
  - simpl. apply IH. intros k' v' Hin. apply Hall. by right.
  - symmetry. apply Hall. by left.
Qed.

(** X2: for an [actual] with no header named ["toString"],
    [ensureHeadersContain] returns exactly when every entry of [expected]
    is an entry of [actual]: what [actual] holds besides is of no
    account, and a header that is missing fails like one with another
    value. *)
Theorem ensureHeadersContain_returns_iff (actual expected : JsObject) :
  Map_get "toString" actual = None →
  ensureHeadersContain actual expected = Returned ↔
  ∀ k v, (k, v) ∈ expected → Map_get k actual = Some v.
Proof.
  intros Hshown. split.
  - intros Hrun. by apply ensureHeadersContain_Returned.
  - by apply ensureHeadersContain_contained.
Qed.

Lemma ensureHeadersContain_returns_iff_witness :
  ensureHeadersContain
    [("foo", "bar"); ("Content-Type", "application/json")]
    [("foo", "bar")] = Returned ∧
  ensureHeadersContain [("foo", "bar")] [("foo", "baz")] ≠ Returned.
Proof.
  split.
  - apply (ensureHeadersContain_returns_iff
             [("foo", "bar"); ("Content-Type", "application/json")]
             [("foo", "bar")]); [reflexivity|].
    intros k v [[= -> ->]|Hin]%elem_of_cons; [reflexivity|].
    by apply elem_of_nil in Hin.
  - intros Hrun.
    apply (ensureHeadersContain_returns_iff [("foo", "bar")] [("foo", "baz")])
      with (k := "foo") (v := "baz") in Hrun; [|reflexivity|by left].
    discriminate Hrun.
Defined.

(** X3: the failure [ensureHeadersContain] reports is that of the first
    entry of [expected], in the order of [Object.entries], that [actual]
    does not hold; its message names ["[object Object]"], the key and the
    expected value. *)
Theorem ensureHeadersContain_first_failure (actual : JsObject)
    (held : JsObject) (k v : string) (rest : JsObject) :
  Map_get "toString" actual = None →
  (∀ k' v', (k', v') ∈ held → Map_get k' actual = Some v') →
  Map_get k actual ≠ Some v →
  ensureHeadersContain actual (held ++ (k, v) :: rest) =
    AssertionError
      ("Expected [object Object] to contain " +:+ k +:+ ": " +:+ v).
Proof.
  unfold ensureHeadersContain, objectToString. intros -> Hheld Hmissing.
  induction held as [|[k' v'] held IH]; simpl.
  - unfold assert_strictEqual. by rewrite decide_False.
  - unfold assert_strictEqual at 1. rewrite decide_True.
    + simpl. apply IH. intros k'' v'' Hin. apply Hheld. by right.
    + symmetry. apply Hheld. by left.
Qed.

Lemma ensureHeadersContain_first_failure_witness :
  ensureHeadersContain [("a", "1")] [("a", "1"); ("b", "2"); ("c", "3")] =
    AssertionError "Expected [object Object] to contain b: 2".
Proof.
  apply (ensureHeadersContain_first_failure [("a", "1")] [("a", "1")]
           "b" "2" [("c", "3")]).
  - reflexivity.
  - intros k v [[= -> ->]|Hin]%elem_of_cons; [reflexivity|].
    by apply elem_of_nil in Hin.
  - discriminate.
Defined.

(** X4: [ensureHeadersContain] throws a [TypeError], and makes no
    assertion, as soon as [actual] has a header named ["toString"] and
    [expected] has an entry, even when [actual] holds every expected
    entry: the message of the assertion cannot be built.  With nothing
    expected it returns. *)
Theorem ensureHeadersContain_toString (actual expected : JsObject) :
  is_Some (Map_get "toString" actual) →
  ensureHeadersContain actual expected =
    match expected with
    | [] => Returned
    | _ => TypeError
    end.
Proof.
  intros [shown Hshown]. unfold ensureHeadersContain, objectToString.
  rewrite Hshown. by destruct expected.
Qed.

Lemma ensureHeadersContain_toString_witness :
  ensureHeadersContain [("toString", "x"); ("foo", "bar")] [("foo", "bar")] =
    TypeError.
Proof.
  apply (ensureHeadersContain_toString [("toString", "x"); ("foo", "bar")]
           [("foo", "bar")]).
  by eexists.
Defined.

(** X5: containment of headers as [ensureHeadersContain] checks it is
    transitive, and reflexive on an object that has no header named
    ["toString"]. *)
Theorem ensureHeadersContain_preorder (a b c : JsObject) :
  (NoDup a.*1 → Map_get "toString" a = None →
   ensureHeadersContain a a = Returned) ∧
  (ensureHeadersContain b a = Returned →
   ensureHeadersContain c b = Returned →
   ensureHeadersContain c a = Returned).
Proof.
  split.
  - intros Hnodup Hshown. apply ensureHeadersContain_contained; [done|].
    intros k v Hin. by apply Map_get_elem_NoDup.
  - intros [Hba _]%ensureHeadersContain_Returned
           [Hcb Hshown]%ensureHeadersContain_Returned.
    destruct a as [|[k v] a]; [done|].
    assert (b ≠ []) as Hb.
    { intros ->. specialize (Hba k v (list_elem_of_here _ _)). done. }
    apply ensureHeadersContain_contained; [by apply Hshown|].
    intros k' v' Hin. apply Hcb. apply Map_get_Some_elem. by apply Hba.
Qed.

Lemma ensureHeadersContain_preorder_witness :
  ensureHeadersContain [("foo", "bar")] [("foo", "bar")] = Returned ∧
  ensureHeadersContain [("foo", "bar"); ("a", "b"); ("c", "d")] [("foo", "bar")]
    = Returned.
Proof.
  destruct (ensureHeadersContain_preorder [("foo", "bar")]
              [("a", "b"); ("foo", "bar")]
              [("foo", "bar"); ("a", "b"); ("c", "d")]) as [Hrefl Htrans].
  split.
  - apply Hrefl; [|reflexivity]. by apply (bool_decide_unpack _).
  - apply Htrans; reflexivity.
Defined.

(** X6: [ensureExportMetricsServiceRequestIsSet] returns exactly for a
    request with one resource entry that has a resource and one
    instrumentation library entry, which has a library and three metrics.
    It never throws a [TypeError]: each element and property is read after
    the assertion that it is there; a list of resource entries of another
    length fails the first assertion. *)
Theorem ensureExportMetricsServiceRequestIsSet_iff {Metric}
    (json : ExportMetricsServiceRequest Metric) :
  (ensureExportMetricsServiceRequestIsSet json = Returned ↔
   requestIsSet json) ∧
  ensureExportMetricsServiceRequestIsSet json ≠ TypeError ∧
  (length (resourceMetrics json) ≠ 1%nat →
   ensureExportMetricsServiceRequestIsSet json =
     AssertionError "resourceMetrics has incorrect length").
Proof.
  destruct json as [rms]. unfold ensureExportMetricsServiceRequestIsSet,
    requestIsSet, assert_strictEqual, index0. simpl.
  destruct rms as [|[resource ilms] [|rm' rms]]; simpl.
  - split_and!; [|done..]. split; [done|]. by intros (? & ? & ? & ? & ?).
  - destruct resource as [resource|]; simpl.
    2:{ split_and!; [|done..]. split; [done|].
        by intros (? & ? & ? & ? & ?). }
    destruct ilms as [[|[library metrics] [|ilm' ilms]]|]; simpl;
      try (split_and!; [|done..]; split; [done|];
           by intros (? & ? & ? & ? & ?)).
    destruct library as [library|]; simpl.
    2:{ split_and!; [|done..]. split; [done|].
        by intros (? & ? & ? & ? & ?). }
    destruct (decide (length metrics = 3%nat)) as [Hlen|Hlen].
    + split_and!; [|done..]. split; [|done]. intros _.
      by exists resource, library, metrics.
    + split_and!; [|done..]. split; [done|].
      intros (? & ? & ? & ? & [= -> -> ->]). done.
  - split_and!; [|done..]. split; [done|]. by intros (? & ? & ? & ? & ?).
Qed.

Lemma ensureExportMetricsServiceRequestIsSet_iff_witness :
  ensureExportMetricsServiceRequestIsSet
    {| resourceMetrics :=
         [{| rm_resource := Some {| resource_attributes := ∅ |};
             rm_instrumentationLibraryMetrics :=
               Some [{| ilm_instrumentationLibrary := Some exampleLibrary;
                        ilm_metrics := ["a"; "b"; "c"] |}] |}] |} = Returned ∧
  ensureExportMetricsServiceRequestIsSet
    {| resourceMetrics := @nil (ResourceMetrics string) |} =
    AssertionError "resourceMetrics has incorrect length".
Proof.
  split.
  - apply ensureExportMetricsServiceRequestIsSet_iff.
    by exists {| resource_attributes := ∅ |}, exampleLibrary, ["a"; "b"; "c"].
  - by apply ensureExportMetricsServiceRequestIsSet_iff.
Defined.

(** ** Registration with a meter *)

Lemma Map_get_set_ne {V} (k k' : string) (v : V) (m : list (string * V)) :
  k ≠ k' → Map_get k' (Map_set k v m) = Map_get k' m.
Proof.
  intros Hne. induction m as [|[k0 v0] m IH]; simpl.
  - by rewrite decide_False.
  - destruct (decide (k0 = k)) as [->|]; simpl.
    + by rewrite !decide_False.
    + destruct (decide (k0 = k')); [done|apply IH].
Qed.

Lemma registryAfter_get_ne (name key : string) (first n : nat)
    (registry : list (string * nat)) :
  key ≠ name →
  Map_get key (registryAfter name first n registry) = Map_get key registry.
Proof.
  intros Hne. destruct n as [|n]; simpl; [done|]. by apply Map_get_set_ne.
Qed.

Lemma registered_nil (this : nat) (m : Meter) (name : string) (s : Sdk) :
  meterObjects s !! this = Some m →
  registered this m name [] s = s.
Proof.
  intros Hm. unfold registered. simpl. rewrite app_nil_r.
  rewrite list_insert_id; [by destruct s|]. rewrite Hm. by destruct m.
Qed.

(** X7: each of [createObservableGauge], [createObservableCounter] and
    [createObservableUpDownCounter] makes the descriptor of its kind and
    creates one [AsyncMetricStorage] per view [findViews] returns, in
    their order, each with the callback it was given; the registry then
    maps the name to the storage of the last view, and is as it was when
    there is no view. *)
Theorem Meter_createObservable_one_storage_per_view (this : nat) (m : Meter)
    (name : string) (callback : ObservableCallback) (options : MetricOptions)
    (s : Sdk)
    (create : nat → string → ObservableCallback → MetricOptions → Run ())
    (type : InstrumentType) :
  meterObjects s !! this = Some m →
  (create, type) ∈ observableCreations →
  let descriptor := createInstrumentDescriptor name type options in
  let views :=
    findViews (viewRegistry (sharedState s)) descriptor
      (_instrumentationLibrary m) in
  ∃ s' m',
    create this name callback options s = Some ((), s') ∧
    storageObjects s' =
      storageObjects s ++
        ((λ view, Async (AsyncMetricStorage_create view descriptor callback))
           <$> views) ∧
    meterObjects s' !! this = Some m' ∧
    Map_get name (_metricStorageRegistry m') =
      match views with
      | [] => Map_get name (_metricStorageRegistry m)
      | _ => Some (length (storageObjects s) + length views - 1)%nat
      end.
Proof.
  intros Hm Hcreate descriptor views.
  pose proof (Meter__registerAsyncMetricStorage_spec this m descriptor callback
                s Hm) as Hreg.
  simpl in Hreg. fold views in Hreg.
  eexists _, _. split_and!.
  - unfold observableCreations in Hcreate. rewrite !elem_of_cons in Hcreate.
    destruct Hcreate as [[= -> ->]|[[= -> ->]|[[= -> ->]|Hnil]]];
      [exact Hreg..|by apply elem_of_nil in Hnil].
  - done.
  - by apply registered_meter.
  - simpl. rewrite length_fmap. destruct views as [|view views]; [done|].
    simpl. rewrite Map_get_set. f_equal. lia.
Qed.

Lemma Meter_createObservable_one_storage_per_view_witness :
  ∃ s' m',
    Meter_createObservableCounter 0 "requests" failingCallback exampleOptions
      (oneMeter (ViewRegistry_of [renamingView "a"; renamingView "b"])) =
      Some ((), s') ∧
    length (storageObjects s') = 2%nat ∧
    meterObjects s' !! 0%nat = Some m' ∧
    Map_get "requests" (_metricStorageRegistry m') = Some 1%nat.
Proof.
  destruct (Meter_createObservable_one_storage_per_view 0
              {| _metricStorageRegistry := [];
                 _instrumentationLibrary := exampleLibrary |}
              "requests" failingCallback exampleOptions
              (oneMeter (ViewRegistry_of [renamingView "a"; renamingView "b"]))
              Meter_createObservableCounter OBSERVABLE_COUNTER)
    as (s' & m' & Hrun & Hstorages & Hm' & Hget).
  - reflexivity.
  - right. by left.
  - exists s', m'. split_and!; try done. by rewrite Hstorages.
Defined.

(** X8: a registration, by [_registerMetricStorage] or by
    [_registerAsyncMetricStorage], changes the registry of its meter under
    the name of its descriptor and nowhere else.  The shared state, the
    instrumentation library of the meter, the entries under other names,
    the other meters and every storage that was there stay as they
    were. *)
Theorem register_frame (this : nat) (m : Meter) (registration : Registration)
    (s : Sdk) :
  meterObjects s !! this = Some m →
  ∃ s' m',
    register this registration s = Some ((), s') ∧
    sharedState s' = sharedState s ∧
    length (meterObjects s') = length (meterObjects s) ∧
    meterObjects s' !! this = Some m' ∧
    _instrumentationLibrary m' = _instrumentationLibrary m ∧
    (∀ key, key ≠ descriptor_name (Registration_descriptor registration) →
       Map_get key (_metricStorageRegistry m') =
         Map_get key (_metricStorageRegistry m)) ∧
    (∀ other, other ≠ this →
       meterObjects s' !! other = meterObjects s !! other) ∧
    (∀ r st, storageObjects s !! r = Some st →
       storageObjects s' !! r = Some st).
Proof.
  intros Hm. eexists _, _. split_and!.
  - by apply register_spec.
  - done.
  - simpl. by rewrite length_insert.
  - by apply registered_meter.
  - done.
  - intros key Hkey. simpl. by apply registryAfter_get_ne.
  - intros other Hother. simpl. by rewrite list_lookup_insert_ne.
  - intros r st Hst. simpl. by apply lookup_app_l_Some.
Qed.

Lemma register_frame_witness :
  ∃ s' m',
    register 0
      (SyncRegistration
         (createInstrumentDescriptor "C" COUNTER exampleOptions))
      twoCounters = Some ((), s') ∧
    meterObjects s' !! 0%nat = Some m' ∧
    Map_get "A" (_metricStorageRegistry m') = Some 0%nat ∧
    Map_get "B" (_metricStorageRegistry m') = Some 1%nat.
Proof.
  destruct (register_frame 0
              {| _metricStorageRegistry := [("A", 0%nat); ("B", 1%nat)];
                 _instrumentationLibrary := exampleLibrary |}
              (SyncRegistration
                 (createInstrumentDescriptor "C" COUNTER exampleOptions))
              twoCounters)
    as (s' & m' & Hrun & _ & _ & Hm' & _ & Hkeys & _).
  - reflexivity.
  - exists s', m'. split_and!; try done.
    + by rewrite Hkeys.
    + by rewrite Hkeys.
Defined.

(** X9: when [findViews] returns no view, a registration leaves the store
    as it was: nothing is created and nothing registered.  The synchronous
    instrument gets a [MultiMetricStorage] over no storage, and a write
    through it changes nothing either. *)
Theorem Meter_register_no_views (this : nat) (m : Meter)
    (descriptor : InstrumentDescriptor) (callback : ObservableCallback)
    (s : Sdk) :
  meterObjects s !! this = Some m →
  findViews (viewRegistry (sharedState s)) descriptor
    (_instrumentationLibrary m) = [] →
  Meter__registerMetricStorage this descriptor s =
    Some (MultiMetricStorage [], s) ∧
  Meter__registerAsyncMetricStorage this descriptor callback s =
    Some ((), s) ∧
  ∀ value attributes,
    WritableMetricStorage_record value attributes (MultiMetricStorage []) s =
      Some ((), s).
Proof.
  intros Hm Hviews. split_and!.
  - rewrite (Meter__registerMetricStorage_spec this m descriptor s Hm).
    rewrite Hviews. simpl. by rewrite registered_nil.
  - rewrite (Meter__registerAsyncMetricStorage_spec this m descriptor callback
               s Hm).
    rewrite Hviews. simpl. by rewrite registered_nil.
  - done.
Qed.

Lemma Meter_register_no_views_witness :
  Meter__registerMetricStorage 0
    (createInstrumentDescriptor "requests" COUNTER exampleOptions)
    (oneMeter noViews) =
    Some (MultiMetricStorage [], oneMeter noViews).
Proof.
  apply (Meter_register_no_views 0
           {| _metricStorageRegistry := [];
              _instrumentationLibrary := exampleLibrary |}
           (createInstrumentDescriptor "requests" COUNTER exampleOptions)
           failingCallback (oneMeter noViews)); reflexivity.
Defined.

(** ** More on collection *)

(** X10: [collect] on a meter that has registered nothing resolves with
    the empty list and leaves the store as it is; so does [collect] on a
    meter that was just constructed. *)
Theorem Meter_collect_nothing_registered
    (instrumentationLibrary : InstrumentationLibrary)
    (collector : MetricCollectorHandle) (collectionTime : HrTime) (s : Sdk) :
  (∀ this m,
     meterObjects s !! this = Some m →
     _metricStorageRegistry m = [] →
     Meter_collect this collector collectionTime s = Some (Resolved [], s)) ∧
  ∃ this s1,
    Meter_new instrumentationLibrary s = Some (this, s1) ∧
    Meter_collect this collector collectionTime s1 = Some (Resolved [], s1).
Proof.
  assert (∀ s this m,
            meterObjects s !! this = Some m →
            _metricStorageRegistry m = [] →
            Meter_collect this collector collectionTime s =
              Some (Resolved [], s)) as Hempty.
  { intros s0 this m Hm Hregistry.
    unfold Meter_collect, Meter_collect_map, mbind, Run_bind, getMeter.
    rewrite Hm. simpl. by rewrite Hregistry. }
  split; [by apply Hempty|].
  eexists _, _. split; [reflexivity|].
  apply (Hempty _ _ {| _metricStorageRegistry := [];
                       _instrumentationLibrary := instrumentationLibrary |});
    [|reflexivity].
  simpl. by rewrite lookup_app_r, Nat.sub_diag.
Qed.

Lemma Meter_collect_nothing_registered_witness :
  Meter_collect 0 deltaCollector exampleTime (oneMeter noViews) =
    Some (Resolved [], oneMeter noViews).
Proof.
  destruct (Meter_collect_nothing_registered exampleLibrary deltaCollector
              exampleTime (oneMeter noViews)) as [Hempty _].
  apply (Hempty 0%nat {| _metricStorageRegistry := [];
                         _instrumentationLibrary := exampleLibrary |});
    reflexivity.
Defined.

(** X11: [collect] changes nothing but the storages its meter has
    registered: the shared state, the meters with their registries, the
    number of storages and every storage that is not in the registry of
    the meter stay as they were. *)
Theorem Meter_collect_frame (this : nat) (m : Meter)
    (collector : MetricCollectorHandle) (collectionTime : HrTime) (s : Sdk) :
  Sdk_wf s →
  meterObjects s !! this = Some m →
  ∃ promise s',
    Meter_collect this collector collectionTime s = Some (promise, s') ∧
    sharedState s' = sharedState s ∧
    meterObjects s' = meterObjects s ∧
    length (storageObjects s') = length (storageObjects s) ∧
    ∀ r, r ∉ Map_values (_metricStorageRegistry m) →
      storageObjects s' !! r = storageObjects s !! r.
Proof.
  intros Hwf Hm.
  destruct (Meter_collect_map_spec this m collector collectionTime s Hwf Hm)
    as (calls & s' & Hrun & Hshared & Hmeters & Hlen & _ & _ & Hframe & _).
  eexists _, s'. split; [by apply Meter_collect_unfold|]. by split_and!.
Qed.

Lemma Meter_collect_frame_witness :
  ∃ promise s',
    Meter_collect 0 deltaCollector exampleTime twoCounters =
      Some (promise, s') ∧
    meterObjects s' = meterObjects twoCounters ∧
    length (storageObjects s') = 2%nat.
Proof.
  destruct (Meter_collect_frame 0
              {| _metricStorageRegistry := [("A", 0%nat); ("B", 1%nat)];
                 _instrumentationLibrary := exampleLibrary |}
              deltaCollector exampleTime twoCounters)
    as (promise & s' & Hrun & _ & Hmeters & Hlen & _).
  - vm_compute. repeat constructor.
  - reflexivity.
  - by exists promise, s'.
Defined.

(** ** The order of collection *)

Lemma Map_set_new {V} (k : string) (v : V) (m : list (string * V)) :
  Map_get k m = None → Map_set k v m = m ++ [(k, v)].
Proof.
  induction m as [|[k' v'] m IH]; simpl; [done|].
  destruct (decide (k' = k)); [done|]. intros H. by rewrite IH.
Qed.

Lemma Map_set_old {V} (k : string) (v old : V) (m : list (string * V)) :
  Map_get k m = Some old →
  ∃ i, m !! i = Some (k, old) ∧ Map_set k v m = <[i := (k, v)]> m.
Proof.
  induction m as [|[k' v'] m IH]; simpl; [done|].
  destruct (decide (k' = k)) as [->|].
  - intros [= ->]. by exists 0%nat.
  - intros H. destruct (IH H) as (i & Hi & Hset). exists (S i).
    simpl. by rewrite Hset.
Qed.

(** X12: [collect] invokes the storages in the order in which their names
    were first registered.  The storage a registration leaves in the
    registry is collected last when its name is new; when the name was
    registered before, it is collected in the place of the storage it
    replaces, and the other storages keep their places. *)
Theorem Meter_collect_order (this : nat) (m : Meter)
    (registration : Registration) (s : Sdk)
    (collector : MetricCollectorHandle) (collectionTime : HrTime) :
  Sdk_wf s →
  meterObjects s !! this = Some m →
  let name := descriptor_name (Registration_descriptor registration) in
  let views :=
    findViews (viewRegistry (sharedState s))
      (Registration_descriptor registration) (_instrumentationLibrary m) in
  let storage := (length (storageObjects s) + length views - 1)%nat in
  views ≠ [] →
  ∃ s' calls s'',
    register this registration s = Some ((), s') ∧
    Meter_collect_map this collector collectionTime s' = Some (calls, s'') ∧
    match Map_get name (_metricStorageRegistry m) with
    | None =>
        call_storage <$> calls =
          Map_values (_metricStorageRegistry m) ++ [storage]
    | Some old =>
        ∃ i,
          _metricStorageRegistry m !! i = Some (name, old) ∧
          call_storage <$> calls =
            <[i := storage]> (Map_values (_metricStorageRegistry m))
    end.
Proof.
  intros Hwf Hm name views storage Hviews.
  set (s' := registered this m name (Registration_storage registration <$> views)
               s).
  assert (meterObjects s' !! this =
            Some {| _metricStorageRegistry :=
                      Map_set name storage (_metricStorageRegistry m);
                    _instrumentationLibrary := _instrumentationLibrary m |})
    as Hm'.
  { unfold s'. rewrite (registered_meter _ _ _ _ _ Hm). rewrite length_fmap.
    unfold storage. destruct views as [|view views]; [done|]. simpl.
    do 3 f_equal. lia. }
  assert (Sdk_wf s') as Hwf' by (by apply registered_wf).
  destruct (Meter_collect_map_spec this _ collector collectionTime s' Hwf' Hm')
    as (calls & s'' & Hrun & _ & _ & _ & Hrefs & _).
  exists s', calls, s''. split_and!.
  - by apply register_spec.
  - exact Hrun.
  - rewrite Hrefs. simpl. unfold Map_values.
    destruct (Map_get name (_metricStorageRegistry m)) as [old|] eqn:Hget.
    + destruct (Map_set_old name storage old _ Hget) as (i & Hi & ->).
      exists i. split; [done|]. by rewrite list_fmap_insert.
    + rewrite (Map_set_new _ _ _ Hget). by rewrite fmap_app.
Qed.

Lemma Meter_collect_order_witness :
  ∃ s' calls s'',
    register 0
      (AsyncRegistration
         (createInstrumentDescriptor "A" OBSERVABLE_GAUGE exampleOptions)
         failingCallback) twoCounters = Some ((), s') ∧
    Meter_collect_map 0 cumulativeCollector exampleTime s' =
      Some (calls, s'') ∧
    call_storage <$> calls = [2; 1]%nat.
Proof.
  destruct (Meter_collect_order 0
              {| _metricStorageRegistry := [("A", 0%nat); ("B", 1%nat)];
                 _instrumentationLibrary := exampleLibrary |}
              (AsyncRegistration
                 (createInstrumentDescriptor "A" OBSERVABLE_GAUGE
                    exampleOptions) failingCallback)
              twoCounters cumulativeCollector exampleTime)
    as (s' & calls & s'' & Hreg & Hrun & Horder).
  - vm_compute. repeat constructor.
  - reflexivity.
  - vm_compute. discriminate.
  - exists s', calls, s''. split_and!; try done.
    simpl in Horder. destruct Horder as (i & Hi & ->).
    destruct i as [|[|i]]; simpl in Hi; [reflexivity|discriminate..].
Defined.

(** ** The invariant of the registries *)

Lemma Map_set_keys_NoDup {V} (k : string) (v : V) (m : list (string * V)) :
  NoDup m.*1 → NoDup (Map_set k v m).*1.
Proof.
  intros Hnodup.
  destruct (Map_get k m) as [old|] eqn:Hget.
  - destruct (Map_set_old k v old m Hget) as (i & Hi & ->).
    rewrite list_fmap_insert. simpl. rewrite list_insert_id; [done|].
    by rewrite list_lookup_fmap, Hi.
  - rewrite (Map_set_new k v m Hget), fmap_app. simpl.
    apply NoDup_app. split_and!; [done| |apply NoDup_singleton].
    intros k' Hk' ->%list_elem_of_singleton.
    apply list_elem_of_fmap in Hk' as ([k'' v'] & -> & Hin). simpl in Hget.
    clear Hnodup. induction m as [|[k0 v0] m IH]; simpl in *.
    + by apply elem_of_nil in Hin.
    + destruct (decide (k0 = k'')) as [|Hne]; [done|].
      apply elem_of_cons in Hin as [[= <- <-]|Hin]; [done|by apply IH].
Qed.

Lemma Map_values_set_submseteq {V} (k : string) (v : V)
    (m : list (string * V)) :
  Map_values (Map_set k v m) ⊆+ v :: Map_values m.
Proof.
  unfold Map_values. induction m as [|[k' v'] m IH]; simpl; [done|].
  destruct (decide (k' = k)); simpl.
  - apply submseteq_skip. by apply submseteq_cons.
  - etrans; [apply submseteq_skip, IH|]. by rewrite Permutation_swap.
Qed.

Lemma registryAfter_submseteq (name : string) (first n : nat)
    (registry : list (string * nat)) :
  Map_values (registryAfter name first n registry) ⊆+
    (first + n - 1)%nat :: Map_values registry.
Proof.
  destruct n as [|n]; simpl; [by apply submseteq_cons|].
  replace (first + S n - 1)%nat with (first + n)%nat by lia.
  apply Map_values_set_submseteq.
Qed.

Lemma concat_lookup_insert {A} (ls : list (list A)) (i : nat) (l l' : list A) :
  ls !! i = Some l →
  ∃ before after,
    concat ls = before ++ l ++ after ∧
    concat (<[i := l']> ls) = before ++ l' ++ after.
Proof.
  intros Hi. exists (concat (take i ls)), (concat (drop (S i) ls)). split.
  - rewrite <- (take_drop_middle ls i l Hi) at 1.
    by rewrite concat_app, concat_cons.
  - rewrite insert_take_drop by (by eapply lookup_lt_Some).
    by rewrite concat_app, concat_cons.
Qed.

Lemma submseteq_NoDup {A} (l k : list A) : NoDup k → l ⊆+ k → NoDup l.
Proof.
  intros Hk (k' & Hsub & Hperm)%submseteq_sublist_l.
  apply (sublist_NoDup l k'); [by rewrite Hperm|done].
Qed.

Lemma elem_of_concat {A} (x : A) (ls : list (list A)) :
  x ∈ concat ls → ∃ l, x ∈ l ∧ l ∈ ls.
Proof.
  induction ls as [|l ls IH]; simpl.
  - intros H. by apply elem_of_nil in H.
  - intros [H|H]%elem_of_app.
    + exists l. split; [done|by left].
    + destruct (IH H) as (l' & Hx & Hl'). exists l'. split; [done|by right].
Qed.

Lemma registeredStorages_allocated (s : Sdk) (r : nat) :
  Sdk_wf s → r ∈ registeredStorages s → (r < length (storageObjects s))%nat.
Proof.
  intros Hwf Hr. unfold registeredStorages in Hr.
  apply elem_of_concat in Hr as (l & Hr & Hl).
  apply list_elem_of_fmap in Hl as (m & -> & Hm).
  apply list_elem_of_lookup in Hm as [this Hm].
  pose proof (Sdk_wf_lookup _ _ _ Hwf Hm) as H. rewrite Forall_forall in H.
  by apply H.
Qed.

Lemma Sdk_inv_lookup (s : Sdk) (this : nat) (m : Meter) :
  Sdk_inv s →
  meterObjects s !! this = Some m →
  NoDup (_metricStorageRegistry m).*1 ∧
  NoDup (Map_values (_metricStorageRegistry m)).
Proof.
  intros (_ & Hkeys & Hvalues) Hm. split.
  - exact (Forall_lookup_1 _ _ _ _ Hkeys Hm).
  - unfold registeredStorages in Hvalues.
    destruct (concat_lookup_insert
                ((λ m, Map_values (_metricStorageRegistry m)) <$> meterObjects s)
                this (Map_values (_metricStorageRegistry m)) [])
      as (before & after & Hconcat & _).
    { by rewrite list_lookup_fmap, Hm. }
    rewrite Hconcat in Hvalues.
    apply NoDup_app in Hvalues as (_ & _ & Hvalues).
    by apply NoDup_app in Hvalues as (Hvalues & _).
Qed.

Lemma Sdk_inv_frame (s s' : Sdk) :
  Sdk_inv s →
  meterObjects s' = meterObjects s →
  (length (storageObjects s) ≤ length (storageObjects s'))%nat →
  Sdk_inv s'.
Proof.
  intros (Hwf & Hkeys & Hvalues) Hmeters Hlen. split_and!.
  - by apply (Sdk_wf_frame s).
  - by rewrite Hmeters.
  - unfold registeredStorages. by rewrite Hmeters.
Qed.

Lemma registered_inv (this : nat) (m : Meter) (name : string)
    (storages : list MetricStorage) (s : Sdk) :
  Sdk_inv s →
  meterObjects s !! this = Some m →
  Sdk_inv (registered this m name storages s).
Proof.
  intros Hinv Hm. pose proof Hinv as (Hwf & Hkeys & Hvalues). split_and!.
  - by apply registered_wf.
  - simpl. apply Forall_insert; [done|]. simpl.
    pose proof (Forall_lookup_1 _ _ _ _ Hkeys Hm) as Hm_keys.
    destruct (length storages); simpl; [done|]. by apply Map_set_keys_NoDup.
  - unfold registeredStorages in *. simpl. rewrite list_fmap_insert. simpl.
    set (values' := Map_values (registryAfter name (length (storageObjects s))
                                  (length storages) (_metricStorageRegistry m))).
    destruct (concat_lookup_insert
                ((λ m, Map_values (_metricStorageRegistry m)) <$> meterObjects s)
                this (Map_values (_metricStorageRegistry m)) values')
      as (before & after & Hconcat & ->).
    { by rewrite list_lookup_fmap, Hm. }
    set (storage := (length (storageObjects s) + length storages - 1)%nat).
    destruct (decide (length storages = 0%nat)) as [Hnone|Hsome].
    { unfold values'. rewrite Hnone. simpl. by rewrite <- Hconcat. }
    apply (submseteq_NoDup _
             (storage :: before ++ Map_values (_metricStorageRegistry m) ++ after)).
    + apply NoDup_cons. split; [|by rewrite <- Hconcat].
      rewrite <- Hconcat. intros Hin.
      apply (registeredStorages_allocated s) in Hin; [|done].
      unfold storage in Hin. lia.
    + rewrite (Permutation_middle before). apply submseteq_app; [done|].
      rewrite app_comm_cons. apply submseteq_app; [|done].
      apply registryAfter_submseteq.
Qed.

Lemma WritableMetricStorage_record_frame (value : Z) (attributes : Attributes)
    (w : WritableMetricStorage) (s s' : Sdk) :
  WritableMetricStorage_record value attributes w s = Some ((), s') →
  sharedState s' = sharedState s ∧
  meterObjects s' = meterObjects s ∧
  length (storageObjects s') = length (storageObjects s).
Proof.
  assert (∀ storage s s',
            WritableMetricStorage_recordOne value attributes storage s =
              Some ((), s') →
            sharedState s' = sharedState s ∧
            meterObjects s' = meterObjects s ∧
            length (storageObjects s') = length (storageObjects s)) as Hone.
  { intros storage s0 s0'. unfold WritableMetricStorage_recordOne. run_unfold.
    destruct (storageObjects s0 !! storage) as [[st|st]|]; simpl; [|done..].
    intros [= <-]. simpl. by rewrite length_insert. }
  destruct w as [storage|storages]; simpl; [by apply Hone|].
  unfold mbind, Run_bind, mret, Run_ret.
  destruct (mapM _ storages s) as [[units s'']|] eqn:Hloop; [|done].
  intros [= <-]. revert s units Hloop.
  induction storages as [|storage storages IH]; intros s units Hloop;
    simpl in Hloop.
  - by injection Hloop as _ <-.
  - unfold mbind, Run_bind, mret, Run_ret in Hloop.
    destruct (WritableMetricStorage_recordOne value attributes storage s)
      as [[[] s1]|] eqn:Hstep; [|done].
    destruct (mapM _ storages s1) as [[units' s2]|] eqn:Hrest; [|done].
    injection Hloop as _ <-.
    destruct (Hone _ _ _ Hstep) as (H1 & H2 & H3).
    destruct (IH _ _ Hrest) as (H4 & H5 & H6). split_and!; congruence.
Qed.

(** X13: the operations of a meter keep the invariant of the store, which
    holds of a store with no meter: every registered storage is allocated,
    a registry has one entry per name, and no storage is registered twice,
    neither by one meter nor by two.  The constructor, a registration, a
    write through an instrument and [collect] each lead from a store with
    the invariant to one with it. *)
Theorem Sdk_inv_preserved (s : Sdk) :
  (meterObjects s = [] → Sdk_inv s) ∧
  (Sdk_inv s →
   (∀ instrumentationLibrary this s',
      Meter_new instrumentationLibrary s = Some (this, s') → Sdk_inv s') ∧
   (∀ this registration s',
      register this registration s = Some ((), s') → Sdk_inv s') ∧
   (∀ value attributes w s',
      WritableMetricStorage_record value attributes w s = Some ((), s') →
      Sdk_inv s') ∧
   (∀ this collector collectionTime promise s',
      Meter_collect this collector collectionTime s = Some (promise, s') →
      Sdk_inv s')).
Proof.
  split.
  { intros Hnone. unfold Sdk_inv, Sdk_wf, registeredStorages.
    rewrite Hnone. simpl. split_and!; constructor. }
  intros Hinv. split_and!.
  - intros instrumentationLibrary this s' [= <- <-].
    destruct Hinv as (Hwf & Hkeys & Hvalues). split_and!.
    + by eapply Meter_new_wf.
    + simpl. apply Forall_app. split; [done|]. repeat constructor.
    + unfold registeredStorages in *. simpl.
      rewrite fmap_app, concat_app. simpl. by rewrite app_nil_r.
  - intros this registration s' Hrun.
    destruct (meterObjects s !! this) as [m|] eqn:Hm.
    + rewrite (register_spec this m registration s Hm) in Hrun.
      injection Hrun as <-. by apply registered_inv.
    + destruct registration; simpl in Hrun;
        unfold Meter__registerMetricStorage, Meter__registerAsyncMetricStorage,
          mbind, Run_bind, getMeter in Hrun;
        by rewrite Hm in Hrun.
  - intros value attributes w s' Hrun.
    apply WritableMetricStorage_record_frame in Hrun as (_ & Hmeters & Hlen).
    apply (Sdk_inv_frame s); [done..|lia].
  - intros this collector collectionTime promise s' Hrun.
    destruct (meterObjects s !! this) as [m|] eqn:Hm.
    + destruct Hinv as (Hwf & Hkeys & Hvalues).
      destruct (Meter_collect_map_spec this m collector collectionTime s Hwf Hm)
        as (calls & s'' & Hmap & _ & Hmeters & Hlen & _).
      rewrite (Meter_collect_unfold _ _ _ _ _ _ Hmap) in Hrun.
      injection Hrun as _ <-. apply (Sdk_inv_frame s); [done..|lia].
    + unfold Meter_collect, Meter_collect_map, mbind, Run_bind, getMeter
        in Hrun.
      by rewrite Hm in Hrun.
Qed.

Lemma Sdk_inv_preserved_witness :
  Sdk_inv (newSdk noViews) ∧ Sdk_inv twoCounters.
Proof.
  assert (Sdk_inv (newSdk noViews)) as H0.
  { by apply Sdk_inv_preserved. }
  split; [exact H0|].
  destruct (Sdk_inv_preserved (newSdk (ViewRegistry_of []))) as [Hnew Hstep].
  specialize (Hnew eq_refl).
  destruct (Hstep Hnew) as (Hmeter & _).
  specialize (Hmeter exampleLibrary _ _ eq_refl).
  destruct (Sdk_inv_preserved (oneMeter (ViewRegistry_of [])))
    as (_ & Hstep1).
  destruct (Hstep1 Hmeter) as (_ & Hregister & _).
  specialize (Hregister 0%nat
                (SyncRegistration
                   (createInstrumentDescriptor "A" COUNTER exampleOptions))
                _ eq_refl).
  match type of Hregister with Sdk_inv ?s1 =>
    destruct (Sdk_inv_preserved s1) as (_ & Hstep2) end.
  destruct (Hstep2 Hregister) as (_ & Hregister2 & _).
  specialize (Hregister2 0%nat
                (SyncRegistration
                   (createInstrumentDescriptor "B" COUNTER exampleOptions))
                _ eq_refl).
  match type of Hregister2 with Sdk_inv ?s2 =>
    destruct (Sdk_inv_preserved s2) as (_ & Hstep3) end.
  destruct (Hstep3 Hregister2) as (_ & _ & Hwrite & _).
  exact (Hwrite 1 ∅ (SingleStorage 1) _ eq_refl).
Defined.

(** ** Each storage once *)

(** X14: in a store with the invariant [collect] invokes every registered
    storage once: the storages called are the values of the registry of
    the meter, in its order, one call per name, no storage twice; and no
    storage sees
    what the call did to another: the promise of a call is that of
    [collect] on the storage as it was before [Meter.collect], and the
    storage is left as that [collect] leaves it. *)
Theorem Meter_collect_each_storage_once (this : nat) (m : Meter)
    (collector : MetricCollectorHandle) (collectionTime : HrTime) (s : Sdk) :
  Sdk_inv s →
  meterObjects s !! this = Some m →
  let args := collectArguments (sharedState s) m collector collectionTime in
  ∃ calls s',
    Meter_collect_map this collector collectionTime s = Some (calls, s') ∧
    call_storage <$> calls = Map_values (_metricStorageRegistry m) ∧
    NoDup (call_storage <$> calls) ∧
    length calls = length (_metricStorageRegistry m) ∧
    Forall (λ call,
      ∃ st,
        storageObjects s !! call_storage call = Some st ∧
        call_promise call = (MetricStorage_collect args st).1 ∧
        storageObjects s' !! call_storage call =
          Some (MetricStorage_collect args st).2) calls.
Proof.
  intros Hinv Hm args.
  destruct (Sdk_inv_lookup s this m Hinv Hm) as [_ Hnodup].
  destruct Hinv as (Hwf & _).
  destruct (collect_loop_once this m collector collectionTime
              (Map_values (_metricStorageRegistry m)) s Hm
              (Sdk_wf_lookup _ _ _ Hwf Hm) Hnodup)
    as (calls & s' & Hrun & Hlen & Hcalls).
  assert (call_storage <$> calls = Map_values (_metricStorageRegistry m))
    as Hrefs.
  { apply list_eq. intros i. rewrite list_lookup_fmap.
    destruct (Map_values (_metricStorageRegistry m) !! i) as [r|] eqn:Hi.
    - destruct (Hcalls i r Hi) as (st & _ & -> & _). done.
    - apply lookup_ge_None in Hi. rewrite <- Hlen in Hi.
      apply lookup_ge_None in Hi. by rewrite Hi. }
  exists calls, s'. split_and!.
  - unfold Meter_collect_map. unfold mbind at 1, Run_bind at 1, getMeter at 1.
    rewrite Hm. simpl. exact Hrun.
  - exact Hrefs.
  - by rewrite Hrefs.
  - rewrite Hlen. unfold Map_values. by rewrite length_fmap.
  - apply Forall_lookup_2. intros i call Hcall.
    assert (is_Some (Map_values (_metricStorageRegistry m) !! i)) as [r Hi].
    { apply lookup_lt_is_Some. rewrite <- Hlen. by eapply lookup_lt_Some. }
    destruct (Hcalls i r Hi) as (st & Hst & Hcall' & Hafter).
    rewrite Hcall in Hcall'. injection Hcall' as ->. by exists st.
Qed.

Lemma Meter_collect_each_storage_once_witness :
  ∃ calls s',
    Meter_collect_map 0 cumulativeCollector exampleTime twoCounters =
      Some (calls, s') ∧
    call_storage <$> calls = [0; 1]%nat ∧
    NoDup (call_storage <$> calls) ∧
    length calls = 2%nat.
Proof.
  destruct (Meter_collect_each_storage_once 0
              {| _metricStorageRegistry := [("A", 0%nat); ("B", 1%nat)];
                 _instrumentationLibrary := exampleLibrary |}
              cumulativeCollector exampleTime twoCounters)
    as (calls & s' & Hrun & Hrefs & Hnodup & Hlen & _).
  - split_and!.
    + vm_compute. repeat constructor.
    + vm_compute. constructor; [|constructor].
      by apply (bool_decide_unpack _).
    + by apply (bool_decide_unpack _).
  - reflexivity.
  - by exists calls, s'.
Defined.

Lemma WritableMetricStorage_record_middle (value : Z) (attributes : Attributes)
    (ss : list SyncMetricStorage) (pre post : list MetricStorage) (s : Sdk) :
  storageObjects s = pre ++ (Sync <$> ss) ++ post →
  WritableMetricStorage_record value attributes
    (handleOf (seq (length pre) (length ss))) s =
    Some ((), {| sharedState := sharedState s;
                 meterObjects := meterObjects s;
                 storageObjects :=
                   pre ++ (Sync <$> (SyncMetricStorage_record value attributes
                                       <$> ss)) ++ post |}).
Proof.
  intros Hs.
  pose proof (record_loop value attributes ss pre post s Hs) as Hloop.
  destruct ss as [|st [|st' ss]].
  - simpl in *. unfold mbind, Run_bind. by rewrite Hloop.
  - simpl in *. unfold mbind, Run_bind, mret, Run_ret in Hloop.
    destruct (WritableMetricStorage_recordOne value attributes (length pre) s)
      as [[[] s']|]; [|done]. by injection Hloop as ->.
  - change (handleOf _) with
      (MultiMetricStorage (seq (length pre) (length (st :: st' :: ss)))).
    unfold WritableMetricStorage_record, mbind, Run_bind. by rewrite Hloop.
Qed.

Lemma lookup_middle_agree {A} (pre mid mid' post : list A) (r : nat) :
  length mid = length mid' →
  (r < length pre ∨ length pre + length mid ≤ r)%nat →
  (pre ++ mid ++ post) !! r = (pre ++ mid' ++ post) !! r.
Proof.
  intros Hlen [Hr|Hr].
  - by rewrite !lookup_app_l.
  - rewrite !(lookup_app_r pre) by lia.
    rewrite !lookup_app_r by lia. by rewrite Hlen.
Qed.

(** X15: what is written to an instrument whose name was registered again
    is never collected.  After a second registration under the name, with
    at least one view, a write through the storage handle of the first
    instrument still succeeds, and [Meter.collect] gives the same promise
    as without the write. *)
Theorem Meter_overwritten_instrument_writes_lost (this : nat) (m : Meter)
    (descriptor : InstrumentDescriptor) (second : Registration) (s : Sdk)
    (value : Z) (attributes : Attributes)
    (collector : MetricCollectorHandle) (collectionTime : HrTime) :
  Sdk_wf s →
  meterObjects s !! this = Some m →
  descriptor_name descriptor =
    descriptor_name (Registration_descriptor second) →
  findViews (viewRegistry (sharedState s)) (Registration_descriptor second)
    (_instrumentationLibrary m) ≠ [] →
  ∃ w s1 s2 s3 promise s2' s3',
    Meter__registerMetricStorage this descriptor s = Some (w, s1) ∧
    register this second s1 = Some ((), s2) ∧
    WritableMetricStorage_record value attributes w s2 = Some ((), s3) ∧
    Meter_collect this collector collectionTime s2 = Some (promise, s2') ∧
    Meter_collect this collector collectionTime s3 = Some (promise, s3').
Proof.
  intros Hwf Hm Hname Hviews.
  set (name := descriptor_name (Registration_descriptor second)) in *.
  set (views1 := findViews (viewRegistry (sharedState s)) descriptor
                   (_instrumentationLibrary m)).
  set (views2 := findViews (viewRegistry (sharedState s))
                   (Registration_descriptor second) (_instrumentationLibrary m))
    in *.
  set (ss := (λ view, SyncMetricStorage_create view descriptor) <$> views1).
  assert ((λ view, Sync (SyncMetricStorage_create view descriptor)) <$> views1
          = Sync <$> ss) as Hss.
  { unfold ss. by rewrite <- list_fmap_compose. }
  pose proof (Meter__registerMetricStorage_spec this m descriptor s Hm) as Hreg.
  simpl in Hreg. fold views1 in Hreg. rewrite Hname, Hss in Hreg.
  set (s1 := registered this m name (Sync <$> ss) s) in *.
  set (m1 := {| _metricStorageRegistry :=
                  registryAfter name (length (storageObjects s))
                    (length (Sync <$> ss)) (_metricStorageRegistry m);
                _instrumentationLibrary := _instrumentationLibrary m |}).
  assert (meterObjects s1 !! this = Some m1) as Hm1
    by (by apply registered_meter).
  assert (Sdk_wf s1) as Hwf1 by (by apply registered_wf).
  set (storages2 := Registration_storage second <$> views2).
  set (s2 := registered this m1 name storages2 s1).
  set (storage := (length (storageObjects s1) + length views2 - 1)%nat).
  assert (length views2 ≠ 0%nat) as Hn2 by (by destruct views2).
  set (m2 := {| _metricStorageRegistry :=
                  Map_set name storage (_metricStorageRegistry m);
                _instrumentationLibrary := _instrumentationLibrary m |}).
  assert (meterObjects s2 !! this = Some m2) as Hm2.
  { unfold s2. rewrite (registered_meter _ _ _ _ _ Hm1). f_equal.
    unfold m2, m1, storage, storages2. simpl. rewrite !length_fmap.
    destruct (length views2) as [|n2]; [done|]. simpl.
    destruct (length ss) as [|n1]; simpl.
    - do 2 f_equal. lia.
    - rewrite Map_set_set. do 2 f_equal. lia. }
  assert (storageObjects s2 =
            storageObjects s ++ (Sync <$> ss) ++ storages2) as Hs2.
  { unfold s2, s1. simpl. by rewrite <- app_assoc. }
  pose proof (WritableMetricStorage_record_middle value attributes ss
                (storageObjects s) storages2 s2 Hs2) as Hrec.
  assert (length ss = length views1) as Hlen
    by (unfold ss; by rewrite length_fmap).
  rewrite Hlen in Hrec.
  match type of Hrec with _ = Some (_, ?x) => set (s3 := x) in * end.
  destruct (Meter_collect_local this m2 collector collectionTime s2 s3)
    as (promise & s2' & s3' & Hrun2 & Hrun3); [done..| |].
  { intros r Hr. simpl in Hr.
    assert (r < length (storageObjects s) ∨
            length (storageObjects s) + length (Sync <$> ss) ≤ r)%nat
      as Hwhere.
    { apply Map_values_set in Hr as [->|Hr].
      - right. unfold storage, s1. simpl. rewrite length_app. lia.
      - left. pose proof (Sdk_wf_lookup _ _ _ Hwf Hm) as Hold.
        rewrite Forall_forall in Hold. by apply Hold. }
    assert (r < length (storageObjects s2))%nat as Hlt.
    { apply Map_values_set in Hr as [->|Hr].
      - unfold storage, s2, s1, storages2. simpl.
        rewrite !length_app, !length_fmap. lia.
      - pose proof (Sdk_wf_lookup _ _ _ Hwf Hm) as Hold.
        rewrite Forall_forall in Hold. specialize (Hold _ Hr).
        rewrite Hs2, length_app. lia. }
    destruct (lookup_lt_is_Some_2 _ _ Hlt) as [st Hst].
    exists st. split; [done|]. simpl. rewrite <- Hst, Hs2.
    symmetry. apply lookup_middle_agree; [by rewrite !length_fmap|done]. }
  exists (handleOf (seq (length (storageObjects s)) (length views1))),
    s1, s2, s3, promise, s2', s3'.
  split_and!; try done.
  by rewrite (register_spec this m1 second s1 Hm1).
Qed.

Lemma Meter_overwritten_instrument_writes_lost_witness :
  ∃ w s1 s2 s3 promise s2' s3',
    Meter__registerMetricStorage 0
      (createInstrumentDescriptor "requests" COUNTER exampleOptions)
      (oneMeter (ViewRegistry_of [])) = Some (w, s1) ∧
    register 0
      (SyncRegistration
         (createInstrumentDescriptor "requests" HISTOGRAM exampleOptions))
      s1 = Some ((), s2) ∧
    WritableMetricStorage_record 5 ∅ w s2 = Some ((), s3) ∧
    Meter_collect 0 cumulativeCollector exampleTime s2 = Some (promise, s2') ∧
    Meter_collect 0 cumulativeCollector exampleTime s3 = Some (promise, s3').
Proof.
  apply (Meter_overwritten_instrument_writes_lost 0
           {| _metricStorageRegistry := [];
              _instrumentationLibrary := exampleLibrary |}
           (createInstrumentDescriptor "requests" COUNTER exampleOptions)
           (SyncRegistration
              (createInstrumentDescriptor "requests" HISTOGRAM exampleOptions))
           (oneMeter (ViewRegistry_of [])) 5 ∅ cumulativeCollector exampleTime).
  - vm_compute. repeat constructor.
  - reflexivity.
  - reflexivity.
  - vm_compute. discriminate.
Defined.

(** X16: what one meter does is not seen by the [collect] of another.
    After a registration with a meter, and after the construction of a
    meter, [collect] on any other meter gives the same promise as
    before. *)
Theorem Meter_collect_other_meter (this other : nat) (m mo : Meter)
    (registration : Registration)
    (instrumentationLibrary : InstrumentationLibrary) (s : Sdk)
    (collector : MetricCollectorHandle) (collectionTime : HrTime) :
  Sdk_wf s →
  this ≠ other →
  meterObjects s !! this = Some m →
  meterObjects s !! other = Some mo →
  ∃ promise s0 s1 s1' new s2 s2',
    Meter_collect other collector collectionTime s = Some (promise, s0) ∧
    register this registration s = Some ((), s1) ∧
    Meter_collect other collector collectionTime s1 = Some (promise, s1') ∧
    Meter_new instrumentationLibrary s = Some (new, s2) ∧
    Meter_collect other collector collectionTime s2 = Some (promise, s2').
Proof.
  intros Hwf Hne Hm Hmo.
  pose proof (Sdk_wf_lookup _ _ _ Hwf Hmo) as Hold.
  rewrite Forall_forall in Hold.
  set (s1 := registered this m
               (descriptor_name (Registration_descriptor registration))
               (Registration_storage registration <$>
                  findViews (viewRegistry (sharedState s))
                    (Registration_descriptor registration)
                    (_instrumentationLibrary m)) s).
  destruct (Meter_collect_local other mo collector collectionTime s s1)
    as (promise & s0 & s1' & Hrun & Hrun1); [done..| | |].
  { simpl. by rewrite list_lookup_insert_ne. }
  { intros r Hr. destruct (lookup_lt_is_Some_2 _ _ (Hold r Hr)) as [st Hst].
    exists st. split; [done|]. simpl. by apply lookup_app_l_Some. }
  set (s2 := {| sharedState :=
                  {| resource := resource (sharedState s);
                     sdkStartTime := sdkStartTime (sharedState s);
                     viewRegistry := viewRegistry (sharedState s);
                     metricCollectors := metricCollectors (sharedState s);
                     meters := meters (sharedState s) ++
                               [length (meterObjects s)] |};
                meterObjects :=
                  meterObjects s ++
                    [{| _metricStorageRegistry := [];
                        _instrumentationLibrary := instrumentationLibrary |}];
                storageObjects := storageObjects s |}).
  destruct (Meter_collect_local other mo collector collectionTime s s2)
    as (promise' & s0' & s2' & Hrun' & Hrun2).
  { done. }
  { done. }
  { simpl. by apply lookup_app_l_Some. }
  { intros r Hr. destruct (lookup_lt_is_Some_2 _ _ (Hold r Hr)) as [st Hst].
    by exists st. }
  rewrite Hrun in Hrun'. injection Hrun' as <- <-.
  exists promise, s0, s1, s1', (length (meterObjects s)), s2, s2'.
  split_and!; try done.
  by apply register_spec.
Qed.

Lemma Meter_collect_other_meter_witness :
  ∃ promise s0 s1 s1',
    Meter_collect 1 cumulativeCollector exampleTime twoMeters =
      Some (promise, s0) ∧
    register 0
      (SyncRegistration
         (createInstrumentDescriptor "A" HISTOGRAM exampleOptions))
      twoMeters = Some ((), s1) ∧
    Meter_collect 1 cumulativeCollector exampleTime s1 = Some (promise, s1').
Proof.
  destruct (Meter_collect_other_meter 0 1
              {| _metricStorageRegistry := [("A", 0%nat)];
                 _instrumentationLibrary := exampleLibrary |}
              {| _metricStorageRegistry := [("A", 1%nat)];
                 _instrumentationLibrary := exampleLibrary |}
              (SyncRegistration
                 (createInstrumentDescriptor "A" HISTOGRAM exampleOptions))
              exampleLibrary twoMeters cumulativeCollector exampleTime)
    as (promise & s0 & s1 & s1' & _ & _ & _ & Hrun & Hreg & Hrun1 & _).
  - vm_compute. repeat constructor.
  - done.
  - reflexivity.
  - reflexivity.
  - by exists promise, s0, s1, s1'.
Defined.
